(** * Intelligent load balancer: a shallow embedding

    Embedding of [src/prototypes/intelligent_load_balancer.py]: the rolling
    metrics collector, the four-dimensional account scorer, the cost-first,
    weighted round-robin and composite strategies, the TTL-cached health
    monitor, the circuit breaker and the scheduler that ties them together.

    Conventions.
    - Python [float] values are modelled by exact rationals [Q]; [int] by [Z].
      Equalities on rationals are stated with [==] where a value is computed
      and with [=] where the program merely stores an expression.
    - A [dict] is a [gmap]; a [defaultdict] is a [gmap] whose read
      materialises the default entry ([dd_touch]).
    - Accounts are mutable objects: they live in an object store ([Heap]) and
      candidate lists hold references into it.
    - [time.time()], [datetime.now()] and [random.choice] are answered by
      oracles held in [Env]; every read advances the oracle's cursor. *)

From Stdlib Require Import ZArith QArith Qminmax Lqa Lia String List Sorted Permutation.
From stdpp Require Import gmap strings list fin_maps.
Import ListNotations.

Open Scope Z_scope.
Open Scope Q_scope.

(** ** Numeric helpers *)

(** Python's [a < b] on numbers, as a boolean. *)
Definition Qltb (a b : Q) : bool := negb (Qle_bool b a).

(** [min(l)] and [max(l)] on a list: the scan keeps the first extremum.
    Both raise [ValueError] on an empty list; every call site below guards
    non-emptiness, and the model answers 0 there. *)
Definition py_min (l : list Q) : Q :=
  match l with
  | [] => 0
  | x :: xs => fold_left Qmin xs x
  end.

Definition py_max (l : list Q) : Q :=
  match l with
  | [] => 0
  | x :: xs => fold_left Qmax xs x
  end.

(** [sum(l)] *)
Definition py_sum (l : list Q) : Q := fold_left Qplus l 0.

(** [statistics.mean(l)] for a non-empty list. *)
Definition py_mean (l : list Q) : Q := py_sum l / inject_Z (Z.of_nat (length l)).

(** [int(x)]: truncation towards zero. *)
Definition py_int (x : Q) : Z := Z.quot (Qnum x) (Zpos (Qden x)).

(** ** Data model *)

Record AccountMetrics := mkMetrics {
  account_id : string;
  daily_cost : Q;
  daily_requests : Z;
  success_rate : Q;
  avg_response_time : Q;
  current_concurrent : Z;
  requests_per_minute : Q;
  uptime_hours : Q;
  total_hours : Q;
  recovery_time_avg : Q;
  error_count : Z;
  last_used : option Q;
  m_status : string;
  m_priority : Z
}.

Record Account := mkAccount {
  id : string;
  name : string;
  status : string;
  priority : Z;
  metrics : AccountMetrics
}.

(** The dataclass defaults of [AccountMetrics(account_id)]. *)
Definition default_metrics (aid : string) : AccountMetrics :=
  {| account_id := aid; daily_cost := 0; daily_requests := 0;
     success_rate := 1; avg_response_time := 0; current_concurrent := 0;
     requests_per_minute := 0; uptime_hours := 24; total_hours := 24;
     recovery_time_avg := 0; error_count := 0; last_used := None;
     m_status := "active"; m_priority := 50 |}.

Definition is_active (a : Account) : bool := String.eqb (status a) "active".

(** ** Environment: clock, random source, standard output *)

Record Env := mkEnv {
  clock : nat -> Q;
  ticks : nat;
  draws : nat -> nat;
  drawn : nat;
  stdout : list string
}.

(** The value the next clock read returns. *)
Definition now (e : Env) : Q := clock e (ticks e).

(** [time.time()] (and [datetime.now()], read off the same clock). *)
Definition time_time (e : Env) : Q * Env :=
  (now e,
   {| clock := clock e; ticks := S (ticks e); draws := draws e;
      drawn := drawn e; stdout := stdout e |}).

(** [random.choice(l)]: the element at index [draw mod len(l)];
    [None] stands for the [IndexError] raised on an empty list. *)
Definition random_choice {A} (l : list A) (e : Env) : option A * Env :=
  (nth_error l (draws e (drawn e) mod length l)%nat,
   {| clock := clock e; ticks := ticks e; draws := draws e;
      drawn := S (drawn e); stdout := stdout e |}).

Definition print (s : string) (e : Env) : Env :=
  {| clock := clock e; ticks := ticks e; draws := draws e;
     drawn := drawn e; stdout := stdout e ++ [s] |}.

(** ** defaultdict *)

(** Reading [d[k]] on a [defaultdict] stores the default under a missing key. *)
Definition dd_touch {V} (dflt : V) (k : string) (m : gmap string V) : gmap string V :=
  match m !! k with
  | Some _ => m
  | None => <[k := dflt]> m
  end.

Definition dd_get {V} (dflt : V) (k : string) (m : gmap string V) : V :=
  default dflt (m !! k).

(** ** MetricsCollector *)

Module MetricsCollector.

Record t := mk {
  window_size : nat;
  response_times : gmap string (list Q);
  success_counts : gmap string Z;
  total_counts : gmap string Z;
  cost_history : gmap string (list Q)
}.

(** [MetricsCollector(window_size)] *)
Definition init (ws : nat) : t :=
  {| window_size := ws; response_times := ∅; success_counts := ∅;
     total_counts := ∅; cost_history := ∅ |}.

(** [deque(maxlen=n).append(x)]: the oldest entry leaves when the deque is full. *)
Definition deque_append (maxlen : nat) (d : list Q) (x : Q) : list Q :=
  let d' := d ++ [x] in
  if (maxlen <? length d')%nat then tail d' else d'.

Definition record_request (aid : string) (response_time : Q)
    (success : bool) (cost : Q) (mc : t) : t :=
  let rts := <[aid := deque_append (window_size mc)
                        (dd_get [] aid (response_times mc)) response_time]>
             (response_times mc) in
  let totals := <[aid := (dd_get 0%Z aid (total_counts mc) + 1)%Z]> (total_counts mc) in
  let succs := if success
               then <[aid := (dd_get 0%Z aid (success_counts mc) + 1)%Z]> (success_counts mc)
               else success_counts mc in
  let costs := if Qltb 0 cost
               then <[aid := deque_append (window_size mc)
                               (dd_get [] aid (cost_history mc)) cost]>
                    (cost_history mc)
               else cost_history mc in
  {| window_size := window_size mc; response_times := rts;
     success_counts := succs; total_counts := totals; cost_history := costs |}.

Record Snapshot := mkSnapshot {
  s_avg_response_time : Q;
  s_success_rate : Q;
  s_daily_cost : Q;
  s_daily_requests : Z;
  s_requests_per_minute : Q
}.

Definition get_metrics (aid : string) (mc : t) : Snapshot * t :=
  let rts := dd_get [] aid (response_times mc) in
  let costs := dd_get [] aid (cost_history mc) in
  let avg := match rts with [] => 0 | _ => py_mean rts end in
  let sr := inject_Z (dd_get 0%Z aid (success_counts mc))
            / inject_Z (Z.max 1 (dd_get 0%Z aid (total_counts mc))) in
  let dc := match costs with [] => 0 | _ => py_sum costs end in
  let dr := Z.of_nat (length rts) in
  let rpm := inject_Z dr / Qmax 1 (inject_Z (Z.of_nat (length rts)) * (1 # 100)) in
  ({| s_avg_response_time := avg; s_success_rate := sr; s_daily_cost := dc;
      s_daily_requests := dr; s_requests_per_minute := rpm |},
   {| window_size := window_size mc;
      response_times := dd_touch [] aid (response_times mc);
      success_counts := dd_touch 0%Z aid (success_counts mc);
      total_counts := dd_touch 0%Z aid (total_counts mc);
      cost_history := dd_touch [] aid (cost_history mc) |}).

(** One recorded outcome, and the collector after a history of them. *)
Record Outcome := mkOutcome {
  o_account : string;
  o_response_time : Q;
  o_success : bool;
  o_cost : Q
}.

Definition replay (history : list Outcome) (mc : t) : t :=
  fold_left
    (fun mc o => record_request (o_account o) (o_response_time o)
                   (o_success o) (o_cost o) mc)
    history mc.

(** No response-time window exceeds the capacity. *)
Definition windows_bounded (mc : t) : Prop :=
  forall k l, response_times mc !! k = Some l -> (length l <= window_size mc)%nat.

End MetricsCollector.

(** ** AccountScorer *)

Module AccountScorer.

(** The scorer's own weights. *)
Definition w_cost : Q := 4 # 10.
Definition w_health : Q := 3 # 10.
Definition w_performance : Q := 2 # 10.
Definition w_reliability : Q := 1 # 10.

Definition normalize (value min_val max_val : Q) : Q :=
  if Qeq_bool max_val min_val then 1 # 2
  else Qmax 0 (Qmin 1 ((value - min_val) / (max_val - min_val))).

Definition cost_per_request (a : Account) : Q :=
  daily_cost (metrics a) / inject_Z (daily_requests (metrics a)).

(** The candidates that have requests on record. *)
Definition with_requests (all_accounts : list Account) : list Account :=
  List.filter (fun acc => (0 <? daily_requests (metrics acc))%Z) all_accounts.

(** The [all_costs] list: cost per request of every candidate with requests. *)
Definition all_costs (all_accounts : list Account) : list Q :=
  map cost_per_request (with_requests all_accounts).

Definition calculate_cost_score (account : Account) (all_accounts : list Account) : Q :=
  if (daily_requests (metrics account) =? 0)%Z then 1 # 2
  else
    let costs := all_costs all_accounts in
    if (length costs <? 2)%nat then 1 # 2
    else 1 - normalize (cost_per_request account) (py_min costs) (py_max costs).

Definition calculate_health_score (account : Account) (all_accounts : list Account) : Q :=
  let all_response_times :=
    List.filter (fun v => Qltb 0 v) (map (fun acc => avg_response_time (metrics acc)) all_accounts) in
  let response_score :=
    match all_response_times with
    | [] => 1 # 2
    | _ => 1 - normalize (avg_response_time (metrics account))
                 (py_min all_response_times) (py_max all_response_times)
    end in
  let availability := if is_active account then 1 else 0 in
  (4 # 10) * response_score + (4 # 10) * success_rate (metrics account)
  + (2 # 10) * availability.

Definition calculate_performance_score (account : Account) (all_accounts : list Account) : Q :=
  let all_throughputs := map (fun acc => requests_per_minute (metrics acc)) all_accounts in
  let throughput_score :=
    match all_throughputs with
    | [] => 1 # 2
    | _ => if Qltb (py_min all_throughputs) (py_max all_throughputs)
           then normalize (requests_per_minute (metrics account))
                  (py_min all_throughputs) (py_max all_throughputs)
           else 1 # 2
    end in
  let all_concurrent :=
    map (fun acc => inject_Z (current_concurrent (metrics acc))) all_accounts in
  let load_balance_score :=
    match all_concurrent with
    | [] => 1 # 2
    | _ => if Qltb (py_min all_concurrent) (py_max all_concurrent)
           then 1 - normalize (inject_Z (current_concurrent (metrics account)))
                      (py_min all_concurrent) (py_max all_concurrent)
           else 1 # 2
    end in
  (6 # 10) * throughput_score + (4 # 10) * load_balance_score.

Definition calculate_reliability_score (account : Account) (all_accounts : list Account) : Q :=
  let uptime_score := uptime_hours (metrics account) / Qmax 1 (total_hours (metrics account)) in
  let all_recovery_times :=
    List.filter (fun v => Qltb 0 v) (map (fun acc => recovery_time_avg (metrics acc)) all_accounts) in
  let error_recovery_score :=
    match all_recovery_times with
    | [] => 1 # 2
    | _ => 1 - normalize (recovery_time_avg (metrics account))
                 (py_min all_recovery_times) (py_max all_recovery_times)
    end in
  (6 # 10) * uptime_score + (4 # 10) * error_recovery_score.

Definition calculate_account_score (account : Account) (all_accounts : list Account) : Q :=
  let cost_score := calculate_cost_score account all_accounts in
  let health_score := calculate_health_score account all_accounts in
  let performance_score := calculate_performance_score account all_accounts in
  let reliability_score := calculate_reliability_score account all_accounts in
  w_cost * cost_score + w_health * health_score
  + w_performance * performance_score + w_reliability * reliability_score.

End AccountScorer.

(** ** Object store *)

(** Accounts are shared mutable objects; a candidate list is a list of
    references into the store. *)
Definition ref := nat.
Definition Heap := ref -> Account.

Definition heap_set (h : Heap) (r : ref) (a : Account) : Heap :=
  fun r' => if Nat.eqb r' r then a else h r'.

Definition deref (h : Heap) (rs : list ref) : list Account := map h rs.

(** [[acc for acc in accounts if acc.status == 'active']] and the ids in it. *)
Definition active_refs (h : Heap) (accounts : list ref) : list ref :=
  List.filter (fun r => is_active (h r)) accounts.

Definition active_ids (h : Heap) (accounts : list ref) : list string :=
  map (fun r => id (h r)) (active_refs h accounts).

(** [sorted(l, key=key, reverse=True)]: stable, descending. *)
Fixpoint insert_desc {A} (key : A -> Q) (x : A) (l : list A) : list A :=
  match l with
  | [] => [x]
  | y :: ys => if Qltb (key x) (key y) then y :: insert_desc key x ys
               else x :: y :: ys
  end.

Definition sorted_desc {A} (key : A -> Q) (l : list A) : list A :=
  fold_right (insert_desc key) [] l.

(** The order [sorted_desc] establishes: a larger key comes first. *)
Definition desc {A} (key : A -> Q) (a b : A) : Prop := key b <= key a.

(** ** CostOptimizer *)

Module CostOptimizer.

Definition select_account (h : Heap) (accounts : list ref) : option ref :=
  let healthy_accounts := active_refs h accounts in
  match healthy_accounts with
  | [] => None
  | [r] => Some r
  | _ =>
    let pool := deref h healthy_accounts in
    let scored_accounts :=
      map (fun r =>
             let cost_score := AccountScorer.calculate_cost_score (h r) pool in
             let health_score := AccountScorer.calculate_health_score (h r) pool in
             (r, (7 # 10) * cost_score + (3 # 10) * health_score))
          healthy_accounts in
    match sorted_desc snd scored_accounts with
    | [] => None
    | (r, _) :: _ => Some r
    end
  end.

End CostOptimizer.

(** ** WeightedRoundRobin *)

Module WeightedRoundRobin.

Record t := mk {
  current_weights : gmap string Z;
  total_weights : gmap string Z
}.

Definition init : t := {| current_weights := ∅; total_weights := ∅ |}.

(** [d[k]] on a plain dict whose key is known to be present. *)
Definition at_key (m : gmap string Z) (k : string) : Z := default 0%Z (m !! k).

(** First loop: recompute every candidate's weight, register new ids. *)
Definition refresh_weights (h : Heap) (healthy_accounts : list ref) (s : t) : t :=
  let pool := deref h healthy_accounts in
  fold_left
    (fun s r =>
       let score := AccountScorer.calculate_account_score (h r) pool in
       let tw := <[id (h r) := Z.max 1 (py_int (score * 100))]> (total_weights s) in
       let cw := match current_weights s !! id (h r) with
                 | Some _ => current_weights s
                 | None => <[id (h r) := 0%Z]> (current_weights s)
                 end in
       {| current_weights := cw; total_weights := tw |})
    healthy_accounts s.

(** Second loop: the scan state is the weights, the running maximum and the
    running winner. *)
Definition scan_step (h : Heap) (tw : gmap string Z)
    (st : gmap string Z * Z * option ref) (r : ref) : gmap string Z * Z * option ref :=
  let '(cw, max_current_weight, selected_account) := st in
  let k := id (h r) in
  let cw' := <[k := (at_key cw k + at_key tw k)%Z]> cw in
  if (max_current_weight <? at_key cw' k)%Z
  then (cw', at_key cw' k, Some r)
  else (cw', max_current_weight, selected_account).

Definition scan (h : Heap) (tw : gmap string Z) (healthy_accounts : list ref)
    (cw : gmap string Z) : gmap string Z * Z * option ref :=
  fold_left (scan_step h tw) healthy_accounts (cw, (-1)%Z, None).

Definition total_weight_sum (h : Heap) (tw : gmap string Z) (healthy_accounts : list ref) : Z :=
  fold_left Z.add (map (fun r => at_key tw (id (h r))) healthy_accounts) 0%Z.

Definition select_account (h : Heap) (accounts : list ref) (s : t) : option ref * t :=
  match accounts with
  | [] => (None, s)
  | _ =>
    let healthy_accounts := active_refs h accounts in
    match healthy_accounts with
    | [] => (None, s)
    | _ =>
      let s1 := refresh_weights h healthy_accounts s in
      let '(cw, _, selected_account) :=
        scan h (total_weights s1) healthy_accounts (current_weights s1) in
      match selected_account with
      | Some r =>
        let k := id (h r) in
        let cw' := <[k := (at_key cw k
                           - total_weight_sum h (total_weights s1) healthy_accounts)%Z]> cw in
        (Some r, {| current_weights := cw'; total_weights := total_weights s1 |})
      | None => (None, {| current_weights := cw; total_weights := total_weights s1 |})
      end
    end
  end.

(** Sum of the current weights over a list of ids. *)
Definition weight_sum (ks : list string) (cw : gmap string Z) : Z :=
  fold_right Z.add 0%Z (map (at_key cw) ks).

(** A sequence of calls, each on its own snapshot of the store. *)
Fixpoint run_calls (calls : list (Heap * list ref)) (s : t) : list (option ref) * t :=
  match calls with
  | [] => ([], s)
  | (h, accounts) :: rest =>
    let '(sel, s1) := select_account h accounts s in
    let '(sels, s2) := run_calls rest s1 in
    (sel :: sels, s2)
  end.

End WeightedRoundRobin.

(** ** HealthMonitor *)

Module HealthMonitor.

Record HealthMetrics := mkHM {
  response_time : Q;
  hm_success_rate : Q;
  error_rate : Q;
  rate_limit_status : bool
}.

Record Entry := mkEntry {
  healthy : bool;
  measured : HealthMetrics;
  timestamp : Q
}.

Record t := mk {
  check_interval : Z;
  health_cache : gmap string Entry
}.

Definition init (interval : Z) : t :=
  {| check_interval := interval; health_cache := ∅ |}.

Definition _measure_health_metrics (account : Account) : HealthMetrics :=
  {| response_time := avg_response_time (metrics account);
     hm_success_rate := success_rate (metrics account);
     error_rate := 1 - success_rate (metrics account);
     rate_limit_status := (10 <? error_count (metrics account))%Z |}.

(** The verdict computed on a cache miss. *)
Definition verdict (account : Account) : bool :=
  let hmx := _measure_health_metrics account in
  Qltb (response_time hmx) 5000
  && Qltb (95 # 100) (hm_success_rate hmx)
  && Qltb (error_rate hmx) (5 # 100)
  && negb (rate_limit_status hmx)
  && is_active account.

(** The cache test: the key is present and younger than [check_interval]. *)
Definition cache_valid (hm : t) (key : string) (t_now : Q) : option Entry :=
  match health_cache hm !! key with
  | Some en =>
    if Qltb (t_now - timestamp en) (inject_Z (check_interval hm)) then Some en else None
  | None => None
  end.

(** The cache update after a verdict for [account] was computed at [t_now]. *)
Definition store_verdict (account : Account) (t_now : Q) (hm : t) : t :=
  {| check_interval := check_interval hm;
     health_cache :=
       <[id account := {| healthy := verdict account;
                          measured := _measure_health_metrics account;
                          timestamp := t_now |}]> (health_cache hm) |}.

Definition check_account_health (account : Account) (hm : t) (e : Env) : bool * t * Env :=
  let '(t_now, e1) := time_time e in
  let cache_key := id account in
  match cache_valid hm cache_key t_now with
  | Some en => (healthy en, hm, e1)
  | None => (verdict account, store_verdict account t_now hm, e1)
  end.

End HealthMonitor.

(** ** FailureRecovery *)

Module FailureRecovery.

Inductive BreakerStatus := Open | HalfOpen.
Inductive BreakerType := Temporary | CircuitBreaker.

Record Breaker := mkBreaker {
  b_status : BreakerStatus;
  retry_time : Q;
  b_type : BreakerType
}.

Record t := mk {
  failure_counts : gmap string Z;
  recovery_attempts : gmap string Z;
  circuit_breaker : gmap string Breaker
}.

Definition init : t :=
  {| failure_counts := ∅; recovery_attempts := ∅; circuit_breaker := ∅ |}.

Definition set_breaker (cb : gmap string Breaker) (fr : t) : t :=
  {| failure_counts := failure_counts fr;
     recovery_attempts := recovery_attempts fr;
     circuit_breaker := cb |}.

Definition _mark_temporary_failure (aid : string) (retry_delay : Z)
    (fr : t) (e : Env) : t * Env :=
  let '(t_now, e1) := time_time e in
  (set_breaker (<[aid := {| b_status := Open;
                            retry_time := t_now + inject_Z retry_delay;
                            b_type := Temporary |}]> (circuit_breaker fr)) fr,
   e1).

Definition _trigger_token_refresh (aid : string) (fr : t) (e : Env) : t * Env :=
  let e1 := print ("Triggering token refresh for account " ++ aid) e in
  _mark_temporary_failure aid 60 fr e1.

(** The exponential backoff, in seconds. *)
Definition backoff_time (failure_count : Z) : Z :=
  Z.min (300 * 2 ^ (failure_count - 5)) 3600.

Definition _activate_circuit_breaker (aid : string) (fr : t) (e : Env) : t * Env :=
  let failure_count := dd_get 0%Z aid (failure_counts fr) in
  if (5 <=? failure_count)%Z then
    let '(t_now, e1) := time_time e in
    (set_breaker (<[aid := {| b_status := Open;
                              retry_time := t_now + inject_Z (backoff_time failure_count);
                              b_type := CircuitBreaker |}]> (circuit_breaker fr)) fr,
     e1)
  else (fr, e).

Definition is_quota_error (error_type : string) : bool :=
  String.eqb error_type "rate_limit" || String.eqb error_type "quota_exceeded".

Definition is_auth_error (error_type : string) : bool :=
  String.eqb error_type "auth_error" || String.eqb error_type "invalid_token".

(** [self.failure_counts[account_id] += 1] *)
Definition bump_failures (aid : string) (fr : t) : t :=
  {| failure_counts :=
       <[aid := (dd_get 0%Z aid (failure_counts fr) + 1)%Z]> (failure_counts fr);
     recovery_attempts := recovery_attempts fr;
     circuit_breaker := circuit_breaker fr |}.

Definition handle_request_failure (aid : string) (error_type : string)
    (fr : t) (e : Env) : t * Env :=
  let fr1 := bump_failures aid fr in
  if is_quota_error error_type then _mark_temporary_failure aid 300 fr1 e
  else if is_auth_error error_type then _trigger_token_refresh aid fr1 e
  else _activate_circuit_breaker aid fr1 e.

Definition can_use_account (aid : string) (fr : t) (e : Env) : bool * t * Env :=
  match circuit_breaker fr !! aid with
  | None => (true, fr, e)
  | Some cb_state =>
    match b_status cb_state with
    | Open =>
      let '(t_now, e1) := time_time e in
      if Qle_bool (retry_time cb_state) t_now
      then (true,
            set_breaker (<[aid := {| b_status := HalfOpen;
                                     retry_time := retry_time cb_state;
                                     b_type := b_type cb_state |}]> (circuit_breaker fr)) fr,
            e1)
      else (false, fr, e1)
    | HalfOpen => (true, fr, e)
    end
  end.

Definition mark_success (aid : string) (fr : t) : t :=
  {| failure_counts := match failure_counts fr !! aid with
                       | Some _ => <[aid := 0%Z]> (failure_counts fr)
                       | None => failure_counts fr
                       end;
     recovery_attempts := recovery_attempts fr;
     circuit_breaker := delete aid (circuit_breaker fr) |}.

(** A run of availability checks, each under its own environment. *)
Fixpoint poll (aid : string) (fr : t) (es : list Env) : list bool * t :=
  match es with
  | [] => ([], fr)
  | e :: es' =>
    let '(ok, fr1, _) := can_use_account aid fr e in
    let '(oks, fr2) := poll aid fr1 es' in
    (ok :: oks, fr2)
  end.

End FailureRecovery.

(** ** IntelligentScheduler *)

Module IntelligentScheduler.

(** The scheduler's own weight set. *)
Definition w_cost_priority : Q := 4 # 10.
Definition w_performance : Q := 3 # 10.
Definition w_load_balance : Q := 2 # 10.
Definition w_reliability : Q := 1 # 10.

(** The process state a call works on: the scheduler with its components and
    statistics, the account objects, and the environment. *)
Record World := mkWorld {
  metrics_collector : MetricsCollector.t;
  weighted_rr : WeightedRoundRobin.t;
  health_monitor : HealthMonitor.t;
  failure_recovery : FailureRecovery.t;
  total_selections : Z;
  avg_selection_time : Q;
  cache_hits : Z;
  algorithm_usage : gmap string Z;
  heap : Heap;
  env : Env
}.

(** [IntelligentScheduler()] over a given store and environment. *)
Definition init (h : Heap) (e : Env) : World :=
  {| metrics_collector := MetricsCollector.init 100;
     weighted_rr := WeightedRoundRobin.init;
     health_monitor := HealthMonitor.init 30;
     failure_recovery := FailureRecovery.init;
     total_selections := 0; avg_selection_time := 0; cache_hits := 0;
     algorithm_usage := ∅; heap := h; env := e |}.

Definition set_env (e : Env) (w : World) : World :=
  {| metrics_collector := metrics_collector w; weighted_rr := weighted_rr w;
     health_monitor := health_monitor w; failure_recovery := failure_recovery w;
     total_selections := total_selections w;
     avg_selection_time := avg_selection_time w; cache_hits := cache_hits w;
     algorithm_usage := algorithm_usage w; heap := heap w; env := e |}.

Definition set_heap (h : Heap) (w : World) : World :=
  {| metrics_collector := metrics_collector w; weighted_rr := weighted_rr w;
     health_monitor := health_monitor w; failure_recovery := failure_recovery w;
     total_selections := total_selections w;
     avg_selection_time := avg_selection_time w; cache_hits := cache_hits w;
     algorithm_usage := algorithm_usage w; heap := h; env := env w |}.

Definition set_collector (mc : MetricsCollector.t) (w : World) : World :=
  {| metrics_collector := mc; weighted_rr := weighted_rr w;
     health_monitor := health_monitor w; failure_recovery := failure_recovery w;
     total_selections := total_selections w;
     avg_selection_time := avg_selection_time w; cache_hits := cache_hits w;
     algorithm_usage := algorithm_usage w; heap := heap w; env := env w |}.

Definition set_rr (rr : WeightedRoundRobin.t) (w : World) : World :=
  {| metrics_collector := metrics_collector w; weighted_rr := rr;
     health_monitor := health_monitor w; failure_recovery := failure_recovery w;
     total_selections := total_selections w;
     avg_selection_time := avg_selection_time w; cache_hits := cache_hits w;
     algorithm_usage := algorithm_usage w; heap := heap w; env := env w |}.

Definition set_monitor (hm : HealthMonitor.t) (w : World) : World :=
  {| metrics_collector := metrics_collector w; weighted_rr := weighted_rr w;
     health_monitor := hm; failure_recovery := failure_recovery w;
     total_selections := total_selections w;
     avg_selection_time := avg_selection_time w; cache_hits := cache_hits w;
     algorithm_usage := algorithm_usage w; heap := heap w; env := env w |}.

Definition set_recovery (fr : FailureRecovery.t) (w : World) : World :=
  {| metrics_collector := metrics_collector w; weighted_rr := weighted_rr w;
     health_monitor := health_monitor w; failure_recovery := fr;
     total_selections := total_selections w;
     avg_selection_time := avg_selection_time w; cache_hits := cache_hits w;
     algorithm_usage := algorithm_usage w; heap := heap w; env := env w |}.

Definition set_total_selections (n : Z) (w : World) : World :=
  {| metrics_collector := metrics_collector w; weighted_rr := weighted_rr w;
     health_monitor := health_monitor w; failure_recovery := failure_recovery w;
     total_selections := n;
     avg_selection_time := avg_selection_time w; cache_hits := cache_hits w;
     algorithm_usage := algorithm_usage w; heap := heap w; env := env w |}.

Definition set_avg_selection_time (q : Q) (w : World) : World :=
  {| metrics_collector := metrics_collector w; weighted_rr := weighted_rr w;
     health_monitor := health_monitor w; failure_recovery := failure_recovery w;
     total_selections := total_selections w;
     avg_selection_time := q; cache_hits := cache_hits w;
     algorithm_usage := algorithm_usage w; heap := heap w; env := env w |}.

Definition set_algorithm_usage (u : gmap string Z) (w : World) : World :=
  {| metrics_collector := metrics_collector w; weighted_rr := weighted_rr w;
     health_monitor := health_monitor w; failure_recovery := failure_recovery w;
     total_selections := total_selections w;
     avg_selection_time := avg_selection_time w; cache_hits := cache_hits w;
     algorithm_usage := u; heap := heap w; env := env w |}.

(** The five fields [_filter_available_accounts] overwrites from a snapshot. *)
Definition refresh_metrics (s : MetricsCollector.Snapshot) (a : Account) : Account :=
  let m := metrics a in
  {| id := id a; name := name a; status := status a; priority := priority a;
     metrics :=
       {| account_id := account_id m;
          daily_cost := MetricsCollector.s_daily_cost s;
          daily_requests := MetricsCollector.s_daily_requests s;
          success_rate := MetricsCollector.s_success_rate s;
          avg_response_time := MetricsCollector.s_avg_response_time s;
          current_concurrent := current_concurrent m;
          requests_per_minute := MetricsCollector.s_requests_per_minute s;
          uptime_hours := uptime_hours m; total_hours := total_hours m;
          recovery_time_avg := recovery_time_avg m;
          error_count := error_count m; last_used := last_used m;
          m_status := m_status m; m_priority := m_priority m |} |}.

Definition stamp_last_used (t_now : Q) (a : Account) : Account :=
  let m := metrics a in
  {| id := id a; name := name a; status := status a; priority := priority a;
     metrics :=
       {| account_id := account_id m; daily_cost := daily_cost m;
          daily_requests := daily_requests m; success_rate := success_rate m;
          avg_response_time := avg_response_time m;
          current_concurrent := current_concurrent m;
          requests_per_minute := requests_per_minute m;
          uptime_hours := uptime_hours m; total_hours := total_hours m;
          recovery_time_avg := recovery_time_avg m;
          error_count := error_count m; last_used := Some t_now;
          m_status := m_status m; m_priority := m_priority m |} |}.

(** One iteration of the loop in [_filter_available_accounts]. *)
Definition filter_step (st : list ref * World) (r : ref) : list ref * World :=
  let '(available, w) := st in
  let '(snap, mc) := MetricsCollector.get_metrics (id (heap w r)) (metrics_collector w) in
  let w1 := set_heap (heap_set (heap w) r (refresh_metrics snap (heap w r)))
                     (set_collector mc w) in
  let '(is_healthy, hm, e1) :=
    HealthMonitor.check_account_health (heap w1 r) (health_monitor w1) (env w1) in
  let w2 := set_env e1 (set_monitor hm w1) in
  if is_healthy then
    let '(usable, fr, e2) :=
      FailureRecovery.can_use_account (id (heap w2 r)) (failure_recovery w2) (env w2) in
    let w3 := set_env e2 (set_recovery fr w2) in
    if usable then (available ++ [r], w3) else (available, w3)
  else (available, w2).

Definition _filter_available_accounts (accounts : list ref) (w : World) : list ref * World :=
  fold_left filter_step accounts ([], w).

Definition truthy (context : option (gmap string bool)) (key : string) : bool :=
  match context with
  | Some c => default false (c !! key)
  | None => false
  end.

Definition _select_algorithm (context : option (gmap string bool)) : string :=
  match context with
  | None => "intelligent"
  | Some c =>
    if decide (c = ∅) then "intelligent"
    else if truthy context "cost_sensitive" then "cost_first"
    else if truthy context "high_concurrency" then "weighted_round_robin"
    else "intelligent"
  end.

(** Outcome of a block that may raise. *)
Inductive Res (A : Type) := Ok (a : A) | Raised (msg : string).
Arguments Ok {A} a.
Arguments Raised {A} msg.

(** The scheduler-weighted composite of one candidate. *)
Definition final_score (a : Account) (pool : list Account) : Q :=
  w_cost_priority * AccountScorer.calculate_cost_score a pool
  + w_performance * AccountScorer.calculate_performance_score a pool
  + w_load_balance * AccountScorer.calculate_health_score a pool
  + w_reliability * AccountScorer.calculate_reliability_score a pool.

(** The [scores] dict: keyed by account id, a later candidate overwrites an
    earlier one that has the same id. *)
Definition score_table (h : Heap) (accounts : list ref) : gmap string Q :=
  fold_left (fun scores r => <[id (h r) := final_score (h r) (deref h accounts)]> scores)
            accounts ∅.

Definition score_of (scores : gmap string Q) (h : Heap) (r : ref) : Q :=
  default 0 (scores !! id (h r)).

(** [max(1, len(sorted_accounts) // 5)] *)
Definition top_percent (n : nat) : nat := Nat.max 1 (n / 5).

Definition ranked (h : Heap) (accounts : list ref) : list ref :=
  sorted_desc (score_of (score_table h accounts) h) accounts.

Definition _intelligent_selection (accounts : list ref) (w : World)
    : Res (option ref) * World :=
  match accounts with
  | [] => (Ok None, w)
  | _ =>
    let sorted_accounts := ranked (heap w) accounts in
    let '(pick, e1) :=
      random_choice (firstn (top_percent (length sorted_accounts)) sorted_accounts) (env w) in
    match pick with
    | Some r => (Ok (Some r), set_env e1 w)
    | None => (Raised "IndexError", set_env e1 w)
    end
  end.

Definition _apply_selection_algorithm (algorithm : string) (accounts : list ref)
    (w : World) : Res (option ref) * World :=
  if String.eqb algorithm "cost_first" then
    (Ok (CostOptimizer.select_account (heap w) accounts), w)
  else if String.eqb algorithm "weighted_round_robin" then
    let '(sel, rr) := WeightedRoundRobin.select_account (heap w) accounts (weighted_rr w) in
    (Ok sel, set_rr rr w)
  else if String.eqb algorithm "intelligent" then
    _intelligent_selection accounts w
  else
    let '(pick, e1) := random_choice accounts (env w) in
    match pick with
    | Some r => (Ok (Some r), set_env e1 w)
    | None => (Raised "IndexError", set_env e1 w)
    end.

Definition _record_selection_metrics (account : option ref) (selection_time : Q)
    (w : World) : World :=
  let total_time :=
    avg_selection_time w * (inject_Z (total_selections w) - 1) + selection_time in
  let w1 := set_avg_selection_time (total_time / inject_Z (total_selections w)) w in
  match account with
  | Some r =>
    let '(t_now, e1) := time_time (env w1) in
    set_env e1 (set_heap (heap_set (heap w1) r (stamp_last_used t_now (heap w1 r))) w1)
  | None => w1
  end.

(** [self.selection_stats['algorithm_usage'][algorithm] += 1] *)
Definition count_usage (algorithm : string) (w : World) : World :=
  set_algorithm_usage
    (<[algorithm := (dd_get 0%Z algorithm (algorithm_usage w) + 1)%Z]> (algorithm_usage w)) w.

(** The [try] block of [select_account]. *)
Definition select_body (start_time : Q) (accounts : list ref)
    (context : option (gmap string bool)) (w : World) : Res (option ref) * World :=
  let w1 := set_total_selections (total_selections w + 1)%Z w in
  let '(available_accounts, w2) := _filter_available_accounts accounts w1 in
  match available_accounts with
  | [] => (Raised "No available accounts", w2)
  | [r] => (Ok (Some r), w2)
  | _ =>
    let algorithm := _select_algorithm context in
    let w3 := count_usage algorithm w2 in
    match _apply_selection_algorithm algorithm available_accounts w3 with
    | (Raised msg, w4) => (Raised msg, w4)
    | (Ok selected_account, w4) =>
      let '(t_end, e5) := time_time (env w4) in
      let selection_time := t_end - start_time in
      (Ok selected_account,
       _record_selection_metrics selected_account selection_time (set_env e5 w4))
    end
  end.

(** [select_account]: the [try] block, and the fallback of its [except]. *)
Definition select_account (accounts : list ref)
    (context : option (gmap string bool)) (w : World) : Res (option ref) * World :=
  let '(start_time, e0) := time_time (env w) in
  match select_body start_time accounts context (set_env e0 w) with
  | (Ok result, w') => (Ok result, w')
  | (Raised msg, w') =>
    let w'' := set_env (print ("Selection failed, using fallback: " ++ msg) (env w')) w' in
    match accounts with
    | [] => (Ok None, w'')
    | _ =>
      let '(pick, e1) := random_choice accounts (env w'') in
      match pick with
      | Some r => (Ok (Some r), set_env e1 w'')
      | None => (Raised "IndexError", set_env e1 w'')
      end
    end
  end.

Definition record_request_result (aid : string) (success : bool)
    (response_time : Q) (cost : Q) (error_type : option string) (w : World) : World :=
  let w1 := set_collector
              (MetricsCollector.record_request aid response_time success cost
                 (metrics_collector w)) w in
  if success then
    set_recovery (FailureRecovery.mark_success aid (failure_recovery w1)) w1
  else
    match error_type with
    | Some et =>
      if String.eqb et EmptyString then w1
      else
        let '(fr, e1) :=
          FailureRecovery.handle_request_failure aid et (failure_recovery w1) (env w1) in
        set_env e1 (set_recovery fr w1)
    | None => w1
    end.

(** *** Stages of a call, named for the statements below *)

(** The state once [select_account] has read the start time and counted the call. *)
Definition entered (w : World) : World :=
  set_total_selections (total_selections w + 1)%Z (set_env (time_time (env w)).2 w).

(** The candidates that pass the health and breaker filter, and the state after it. *)
Definition survivors (accounts : list ref) (w : World) : list ref * World :=
  _filter_available_accounts accounts (entered w).

(** The strategy applied to the survivors. *)
Definition dispatched (accounts : list ref) (context : option (gmap string bool))
    (w : World) : Res (option ref) * World :=
  let '(available_accounts, w2) := survivors accounts w in
  _apply_selection_algorithm (_select_algorithm context) available_accounts
    (count_usage (_select_algorithm context) w2).

(** The statistics a call may touch. *)
Definition stats (w : World) : Z * Q * gmap string Z :=
  (total_selections w, avg_selection_time w, algorithm_usage w).

End IntelligentScheduler.

(** ** Scenarios used to exercise the statements *)

Module Scenario.

Definition account_of (aid st : string) (m : AccountMetrics) : Account :=
  {| id := aid; name := aid; status := st; priority := 50; metrics := m |}.

(** Metrics with a given cost and request count, everything else default. *)
Definition priced (aid : string) (cost : Q) (requests : Z) : AccountMetrics :=
  {| account_id := aid; daily_cost := cost; daily_requests := requests;
     success_rate := 1; avg_response_time := 0; current_concurrent := 0;
     requests_per_minute := 0; uptime_hours := 24; total_hours := 24;
     recovery_time_avg := 0; error_count := 0; last_used := None;
     m_status := "active"; m_priority := 50 |}.

Definition cheap : Account := account_of "cheap" "active" (priced "cheap" 8 100).
Definition mid : Account := account_of "mid" "active" (priced "mid" 10 100).
Definition dear : Account := account_of "dear" "active" (priced "dear" 15 100).
Definition idle : Account := account_of "idle" "active" (default_metrics "idle").
Definition pool3 : list Account := [mid; dear; cheap].

(** A clock that advances one second per read, and a constant random draw. *)
Definition env_of (d : nat) : Env :=
  {| clock := fun n => inject_Z (Z.of_nat n); ticks := 0;
     draws := fun _ => d; drawn := 0; stdout := [] |}.

(** An environment whose clock shows [t]. *)
Definition env_at (t : Q) : Env :=
  {| clock := fun _ => t; ticks := 0; draws := fun _ => 0%nat; drawn := 0; stdout := [] |}.

(** Two accounts, "a" at reference 0 and "b" at every other reference. *)
Definition heap2 : Heap :=
  fun r => match r with
           | O => account_of "a" "active" (default_metrics "a")
           | _ => account_of "b" "active" (default_metrics "b")
           end.

Definition fresh : IntelligentScheduler.World :=
  IntelligentScheduler.init heap2 (env_of 0).

(** One successful request recorded for each of "a" and "b". *)
Definition warm : IntelligentScheduler.World :=
  IntelligentScheduler.record_request_result "b" true 100 0 None
    (IntelligentScheduler.record_request_result "a" true 100 0 None fresh).

Definition deactivate (a : Account) : Account :=
  {| id := id a; name := name a; status := "inactive"; priority := priority a;
     metrics := metrics a |}.

(** Both accounts were judged healthy by a first call, then switched to
    inactive while that verdict is still cached. *)
Definition stale : IntelligentScheduler.World :=
  let w := (IntelligentScheduler.select_account [0%nat; 1%nat] None warm).2 in
  IntelligentScheduler.set_heap (fun r => deactivate (IntelligentScheduler.heap w r)) w.

(** The breaker state after [n] failures of an unclassified kind for "a". *)
Fixpoint after_timeouts (n : nat) : FailureRecovery.t :=
  match n with
  | O => FailureRecovery.init
  | S n' => (FailureRecovery.handle_request_failure "a" "timeout"
               (after_timeouts n') (env_at 0)).1
  end.

Definition cost_sensitive : option (gmap string bool) :=
  Some {[ "cost_sensitive" := true ]}.

Definition high_concurrency : option (gmap string bool) :=
  Some {[ "high_concurrency" := true ]}.

(** Six candidates, cheaper per request as the reference grows. *)
Definition heap6 : Heap :=
  fun r => account_of (String (Ascii.ascii_of_nat (97 + r)) EmptyString) "active"
             (priced (String (Ascii.ascii_of_nat (97 + r)) EmptyString)
                     (inject_Z (20 - Z.of_nat r)) 100).

Definition six : list ref := [0; 1; 2; 3; 4; 5]%nat.

Definition world6 (d : nat) : IntelligentScheduler.World :=
  IntelligentScheduler.init heap6 (env_of d).

End Scenario.

(** ** Vocabulary of the further properties *)

(** Counters and cost windows a history can produce. *)
Definition counts_consistent (mc : MetricsCollector.t) : Prop :=
  (forall k, (0 <= dd_get 0%Z k (MetricsCollector.success_counts mc)
              <= dd_get 0%Z k (MetricsCollector.total_counts mc))%Z)
  /\ (forall k l, MetricsCollector.cost_history mc !! k = Some l ->
                  Forall (fun c => 0 < c) l).

(** The outcomes recorded for one account, oldest first. *)
Definition outcomes_of (aid : string) (history : list MetricsCollector.Outcome)
    : list MetricsCollector.Outcome :=
  List.filter (fun o => String.eqb (MetricsCollector.o_account o) aid) history.

(** The response times recorded for one account, oldest first. *)
Definition responses_of (aid : string) (history : list MetricsCollector.Outcome) : list Q :=
  map MetricsCollector.o_response_time
    (List.filter (fun o => String.eqb (MetricsCollector.o_account o) aid) history).

(** The positive costs recorded for one account, oldest first. *)
Definition costs_of (aid : string) (history : list MetricsCollector.Outcome) : list Q :=
  map MetricsCollector.o_cost
    (List.filter (fun o => String.eqb (MetricsCollector.o_account o) aid
                           && Qltb 0 (MetricsCollector.o_cost o)) history).

(** The part of the breaker state that belongs to one account. *)
Definition account_view (k : string) (fr : FailureRecovery.t)
    : option Z * option FailureRecovery.Breaker :=
  (FailureRecovery.failure_counts fr !! k, FailureRecovery.circuit_breaker fr !! k).

(** The cost-first strategy's score of a candidate within the active [pool]. *)
Definition cost_first_score (h : Heap) (pool : list ref) (r : ref) : Q :=
  (7 # 10) * AccountScorer.calculate_cost_score (h r) (deref h pool)
  + (3 # 10) * AccountScorer.calculate_health_score (h r) (deref h pool).

(** The parts of the environment a clock read leaves alone. *)
Definition env_frame (e : Env) : (nat -> Q) * (nat -> nat) * nat * list string :=
  (clock e, draws e, drawn e, stdout e).

(** What filtering never changes: the statistics, the rotation weights, who
    each account is, and the clock function, random source and output. *)
Definition filter_frame (w w' : IntelligentScheduler.World) : Prop :=
  IntelligentScheduler.stats w' = IntelligentScheduler.stats w
  /\ IntelligentScheduler.weighted_rr w' = IntelligentScheduler.weighted_rr w
  /\ (forall r, id (IntelligentScheduler.heap w' r) = id (IntelligentScheduler.heap w r)
                /\ status (IntelligentScheduler.heap w' r)
                   = status (IntelligentScheduler.heap w r))
  /\ env_frame (IntelligentScheduler.env w') = env_frame (IntelligentScheduler.env w).

(** The dictionary [get_performance_stats] returns. *)
Record PerformanceStats := mkPerformanceStats {
  ps_total_selections : Z;
  ps_avg_selection_time : Q;
  ps_cache_hits : Z;
  ps_algorithm_usage : gmap string Z;
  ps_health_cache_size : nat;
  ps_circuit_breakers : nat;
  ps_failure_counts : gmap string Z
}.

Definition get_performance_stats (w : IntelligentScheduler.World) : PerformanceStats :=
  {| ps_total_selections := IntelligentScheduler.total_selections w;
     ps_avg_selection_time := IntelligentScheduler.avg_selection_time w;
     ps_cache_hits := IntelligentScheduler.cache_hits w;
     ps_algorithm_usage := IntelligentScheduler.algorithm_usage w;
     ps_health_cache_size :=
       size (HealthMonitor.health_cache (IntelligentScheduler.health_monitor w));
     ps_circuit_breakers :=
       size (FailureRecovery.circuit_breaker (IntelligentScheduler.failure_recovery w));
     ps_failure_counts :=
       FailureRecovery.failure_counts (IntelligentScheduler.failure_recovery w) |}.

(** A call a client makes on the scheduler. *)
Inductive Call :=
| Select (accounts : list ref) (context : option (gmap string bool))
| Report (aid : string) (success : bool) (response_time cost : Q)
         (error_type : option string).

Definition run_call (w : IntelligentScheduler.World) (c : Call) : IntelligentScheduler.World :=
  match c with
  | Select accounts context => (IntelligentScheduler.select_account accounts context w).2
  | Report aid success response_time cost error_type =>
    IntelligentScheduler.record_request_result aid success response_time cost error_type w
  end.

Definition run_client_calls (calls : list Call) (w : IntelligentScheduler.World)
    : IntelligentScheduler.World :=
  fold_left run_call calls w.

Definition is_select (c : Call) : bool :=
  match c with Select _ _ => true | Report _ _ _ _ _ => false end.

(** * Properties *)

(** ** Arithmetic on rationals *)

Section Numeric.

Lemma Qltb_lt a b : Qltb a b = true <-> a < b.
Proof.
  unfold Qltb. rewrite negb_true_iff. split; intros H.
  - apply Qnot_le_lt. intros Hle. apply Qle_bool_iff in Hle. congruence.
  - destruct (Qle_bool b a) eqn:E; [|reflexivity].
    apply Qle_bool_iff in E. lra.
Qed.

Lemma Qltb_ge a b : Qltb a b = false <-> b <= a.
Proof.
  unfold Qltb. rewrite negb_false_iff. apply Qle_bool_iff.
Qed.

Lemma Qle_bool_false a b : Qle_bool a b = false <-> b < a.
Proof.
  split; intros H.
  - apply Qnot_le_lt. intros Hle. apply Qle_bool_iff in Hle. congruence.
  - destruct (Qle_bool a b) eqn:E; [|reflexivity]. apply Qle_bool_iff in E. lra.
Qed.

Lemma fold_min_le xs : forall x, fold_left Qmin xs x <= x.
Proof.
  induction xs as [|y ys IH]; intros x; simpl; [lra|].
  eapply Qle_trans; [apply IH|]. apply Q.le_min_l.
Qed.

Lemma fold_max_ge xs : forall x, x <= fold_left Qmax xs x.
Proof.
  induction xs as [|y ys IH]; intros x; simpl; [lra|].
  eapply Qle_trans; [|apply IH]. apply Q.le_max_l.
Qed.

Lemma py_min_le_max l : py_min l <= py_max l.
Proof.
  destruct l as [|x xs]; simpl; [lra|].
  eapply Qle_trans; [apply fold_min_le | apply fold_max_ge].
Qed.

Lemma clamp_range x : 0 <= Qmax 0 (Qmin 1 x) <= 1.
Proof.
  split; [apply Q.le_max_l|].
  apply Q.max_lub; [lra | apply Q.le_min_l].
Qed.

Lemma clamp_mono x y : x <= y -> Qmax 0 (Qmin 1 x) <= Qmax 0 (Qmin 1 y).
Proof.
  intros H. apply Q.max_le_compat_l. apply Q.min_le_compat_l. exact H.
Qed.

Lemma uptime_ratio_range u t :
  0 < u -> 0 < t -> u <= t -> 0 <= u / Qmax 1 t <= 1.
Proof.
  intros Hu Ht Hut.
  assert (H1 : 1 <= Qmax 1 t) by apply Q.le_max_l.
  assert (H2 : t <= Qmax 1 t) by apply Q.le_max_r.
  split.
  - apply Qle_shift_div_l; lra.
  - apply Qle_shift_div_r; lra.
Qed.

End Numeric.

(** ** AccountScorer *)

Section ScorerFacts.
Import AccountScorer.

Lemma normalize_range v lo hi : 0 <= normalize v lo hi <= 1.
Proof.
  unfold normalize. destruct (Qeq_bool hi lo); [lra|]. apply clamp_range.
Qed.

Lemma normalize_mono v1 v2 lo hi :
  lo <= hi -> v1 <= v2 -> normalize v1 lo hi <= normalize v2 lo hi.
Proof.
  intros Hlh Hv. unfold normalize.
  destruct (Qeq_bool hi lo) eqn:E; [lra|].
  apply Qeq_bool_neq in E.
  apply clamp_mono. unfold Qdiv.
  apply Qmult_le_compat_r; [lra|].
  apply Qinv_le_0_compat. lra.
Qed.

(** Bring the range of the [normalize] call in the goal into the context and
    hide the call behind a variable. *)
Ltac bound_normalize :=
  match goal with
  | |- context [normalize ?v ?lo ?hi] =>
    let n := fresh "n" in
    let Hn := fresh "Hn" in
    pose proof (normalize_range v lo hi) as Hn;
    set (n := normalize v lo hi) in *; clearbody n
  end.

Lemma cost_score_range a l : 0 <= calculate_cost_score a l <= 1.
Proof.
  unfold calculate_cost_score. cbv zeta.
  destruct (_ =? _)%Z; [lra|]. destruct (_ <? _)%nat; [lra|].
  bound_normalize. lra.
Qed.

Lemma health_score_range a l :
  0 <= success_rate (metrics a) <= 1 -> 0 <= calculate_health_score a l <= 1.
Proof.
  intros Hs. unfold calculate_health_score. cbv zeta.
  set (rts := List.filter _ _). clearbody rts.
  assert (Hr : 0 <= match rts with
                    | [] => 1 # 2
                    | _ => 1 - normalize (avg_response_time (metrics a)) (py_min rts) (py_max rts)
                    end <= 1).
  { destruct rts; [lra|]. bound_normalize. lra. }
  set (x := match rts with [] => _ | _ => _ end) in *. clearbody x.
  destruct (is_active a); lra.
Qed.

Lemma performance_score_range a l : 0 <= calculate_performance_score a l <= 1.
Proof.
  unfold calculate_performance_score. cbv zeta.
  set (tp := map _ l). set (cc := map _ l). clearbody tp cc.
  assert (Ht : 0 <= match tp with
                    | [] => 1 # 2
                    | _ => if Qltb (py_min tp) (py_max tp)
                           then normalize (requests_per_minute (metrics a)) (py_min tp) (py_max tp)
                           else 1 # 2
                    end <= 1).
  { destruct tp; [lra|]. destruct (Qltb _ _); [bound_normalize; lra | lra]. }
  set (x := match tp with [] => _ | _ => _ end) in *. clearbody x.
  assert (Hc : 0 <= match cc with
                    | [] => 1 # 2
                    | _ => if Qltb (py_min cc) (py_max cc)
                           then 1 - normalize (inject_Z (current_concurrent (metrics a)))
                                      (py_min cc) (py_max cc)
                           else 1 # 2
                    end <= 1).
  { destruct cc; [lra|]. destruct (Qltb _ _); [|lra]. bound_normalize. lra. }
  set (y := match cc with [] => _ | _ => _ end) in *. clearbody y.
  lra.
Qed.

Lemma reliability_score_range a l :
  0 < uptime_hours (metrics a) -> 0 < total_hours (metrics a) ->
  uptime_hours (metrics a) <= total_hours (metrics a) ->
  0 <= calculate_reliability_score a l <= 1.
Proof.
  intros Hu Ht Hut. unfold calculate_reliability_score. cbv zeta.
  pose proof (uptime_ratio_range _ _ Hu Ht Hut) as Hup.
  set (rc := List.filter _ _). clearbody rc.
  assert (Hr : 0 <= match rc with
                    | [] => 1 # 2
                    | _ => 1 - normalize (recovery_time_avg (metrics a)) (py_min rc) (py_max rc)
                    end <= 1).
  { destruct rc; [lra|]. bound_normalize. lra. }
  set (y := match rc with [] => _ | _ => _ end) in *. clearbody y.
  lra.
Qed.

(** C8. For every account whose success rate lies in [0,1] and whose uptime
    hours are positive and at most its (positive) total hours, and for every
    candidate set, the composite score
    0.4*cost + 0.3*health + 0.2*performance + 0.1*reliability lies in [0,1].
    The remaining data-model preconditions are not needed: every normalized
    sub-score is clamped. *)
Theorem calculate_account_score_range (account : Account) (all_accounts : list Account) :
  0 <= success_rate (metrics account) <= 1 ->
  0 < uptime_hours (metrics account) ->
  0 < total_hours (metrics account) ->
  uptime_hours (metrics account) <= total_hours (metrics account) ->
  calculate_account_score account all_accounts
    == (4 # 10) * calculate_cost_score account all_accounts
       + (3 # 10) * calculate_health_score account all_accounts
       + (2 # 10) * calculate_performance_score account all_accounts
       + (1 # 10) * calculate_reliability_score account all_accounts
  /\ 0 <= calculate_account_score account all_accounts <= 1.
Proof.
  intros Hs Hu Ht Hut. unfold calculate_account_score. cbv zeta.
  pose proof (cost_score_range account all_accounts).
  pose proof (health_score_range account all_accounts Hs).
  pose proof (performance_score_range account all_accounts).
  pose proof (reliability_score_range account all_accounts Hu Ht Hut).
  unfold w_cost, w_health, w_performance, w_reliability.
  split; [reflexivity | lra].
Qed.

Lemma calculate_account_score_range_witness :
  0 <= calculate_account_score Scenario.mid Scenario.pool3 <= 1.
Proof.
  apply (calculate_account_score_range Scenario.mid Scenario.pool3); simpl; lra.
Defined.

(** C7. The cost score is 0.5 when the account has no requests; it is 0.5
    when fewer than two candidates have requests; otherwise it is
    1 - normalize(dailyCost/dailyRequests, min, max) with the bounds taken over
    the candidates that have requests; and of two accounts with requests, the
    one that is strictly cheaper per request never scores lower. *)
Theorem calculate_cost_score_cases (account other : Account) (all_accounts : list Account) :
  (daily_requests (metrics account) = 0%Z ->
     calculate_cost_score account all_accounts = 1 # 2)
  /\ ((length (with_requests all_accounts) < 2)%nat ->
     calculate_cost_score account all_accounts = 1 # 2)
  /\ (daily_requests (metrics account) <> 0%Z ->
      (2 <= length (with_requests all_accounts))%nat ->
      calculate_cost_score account all_accounts =
        1 - normalize (daily_cost (metrics account) / inject_Z (daily_requests (metrics account)))
              (py_min (map cost_per_request (with_requests all_accounts)))
              (py_max (map cost_per_request (with_requests all_accounts))))
  /\ (daily_requests (metrics account) <> 0%Z ->
      daily_requests (metrics other) <> 0%Z ->
      cost_per_request account < cost_per_request other ->
      calculate_cost_score other all_accounts <= calculate_cost_score account all_accounts).
Proof.
  unfold calculate_cost_score, all_costs. cbv zeta.
  rewrite length_map.
  repeat split.
  - intros ->. reflexivity.
  - intros Hlt. apply Nat.ltb_lt in Hlt. rewrite Hlt. destruct (_ =? _)%Z; reflexivity.
  - intros Hne Hge. apply Z.eqb_neq in Hne. rewrite Hne.
    apply Nat.ltb_ge in Hge. rewrite Hge. reflexivity.
  - intros Ha Ho Hlt. apply Z.eqb_neq in Ha, Ho. rewrite Ha, Ho.
    destruct (_ <? _)%nat; [lra|].
    match goal with |- 1 - normalize _ ?lo ?hi <= _ =>
      pose proof (normalize_mono (cost_per_request account) (cost_per_request other) lo hi)
        as Hm end.
    specialize (Hm (py_min_le_max _)). lra.
Qed.

Lemma calculate_cost_score_cases_witness :
  calculate_cost_score Scenario.idle Scenario.pool3 = 1 # 2
  /\ calculate_cost_score Scenario.cheap [Scenario.cheap; Scenario.idle] = 1 # 2
  /\ calculate_cost_score Scenario.cheap Scenario.pool3 ==
       1 - normalize ((8 # 1) / (100 # 1)) ((8 # 1) / (100 # 1)) ((15 # 1) / (100 # 1))
  /\ calculate_cost_score Scenario.mid Scenario.pool3
     <= calculate_cost_score Scenario.cheap Scenario.pool3.
Proof.
  split; [|split; [|split]].
  - destruct (calculate_cost_score_cases Scenario.idle Scenario.idle Scenario.pool3)
      as (Hzero & _).
    apply Hzero. reflexivity.
  - destruct (calculate_cost_score_cases Scenario.cheap Scenario.idle
                [Scenario.cheap; Scenario.idle]) as (_ & Hfew & _).
    apply Hfew. simpl. lia.
  - destruct (calculate_cost_score_cases Scenario.cheap Scenario.idle Scenario.pool3)
      as (_ & _ & Hnorm & _).
    rewrite Hnorm; [reflexivity | simpl; lia | simpl; lia].
  - destruct (calculate_cost_score_cases Scenario.cheap Scenario.mid Scenario.pool3)
      as (_ & _ & _ & Hmono).
    apply Hmono; [simpl; lia | simpl; lia | vm_compute; reflexivity].
Defined.

End ScorerFacts.

(** ** MetricsCollector *)

Section CollectorFacts.
Import MetricsCollector.

Lemma deque_append_length n d x :
  (length d <= n)%nat -> (length (deque_append n d x) <= n)%nat.
Proof.
  intros H. unfold deque_append. cbv zeta.
  assert (Hl : length (d ++ [x]) = S (length d)) by (rewrite length_app; simpl; lia).
  destruct (n <? _)%nat eqn:E.
  - destruct (d ++ [x]) as [|y ys]; simpl in *; lia.
  - apply Nat.ltb_ge in E. exact E.
Qed.

Lemma init_bounded ws : windows_bounded (init ws).
Proof. intros k l H. simpl in H. rewrite lookup_empty in H. discriminate. Qed.

Lemma record_request_bounded aid rt ok cost mc :
  windows_bounded mc -> windows_bounded (record_request aid rt ok cost mc).
Proof.
  intros Hb k l. unfold record_request. simpl.
  destruct (decide (aid = k)) as [->|Hne].
  - rewrite lookup_insert_eq. intros [= <-].
    apply deque_append_length. unfold dd_get.
    destruct (response_times mc !! k) as [l0|] eqn:E; simpl.
    + eapply Hb; eauto.
    + lia.
  - rewrite lookup_insert_ne by done. apply Hb.
Qed.

Lemma replay_bounded history : forall mc,
  windows_bounded mc -> windows_bounded (replay history mc).
Proof.
  induction history as [|o os IH]; intros mc Hb; simpl; [exact Hb|].
  apply IH. apply record_request_bounded. exact Hb.
Qed.

Lemma replay_window_size history : forall mc,
  window_size (replay history mc) = window_size mc.
Proof.
  induction history as [|o os IH]; intros mc; simpl; [reflexivity|].
  rewrite IH. reflexivity.
Qed.

Lemma small_window_divisor (n : nat) :
  (n <= 100)%nat -> Qmax 1 (inject_Z (Z.of_nat n) * (1 # 100)) == 1.
Proof.
  intros H. apply Q.max_l.
  assert (Hq : inject_Z (Z.of_nat n) <= inject_Z 100).
  { rewrite <- Zle_Qle. lia. }
  change (inject_Z 100) with 100 in Hq. lra.
Qed.

(** C10. With the default capacity of 100, after any history of recorded
    outcomes and for any account id, the snapshot counts at most 100 requests,
    the divisor max(1, count*0.01) is 1, and requestsPerMinute equals
    dailyRequests. *)
Theorem requests_per_minute_equals_daily_requests
    (history : list Outcome) (aid : string) :
  let snap := (get_metrics aid (replay history (init 100))).1 in
  (s_daily_requests snap <= 100)%Z
  /\ Qmax 1 (inject_Z (s_daily_requests snap) * (1 # 100)) == 1
  /\ s_requests_per_minute snap == inject_Z (s_daily_requests snap).
Proof.
  cbv zeta. unfold get_metrics. cbv zeta. simpl fst.
  unfold s_daily_requests, s_requests_per_minute.
  set (mc := replay history (init 100)).
  assert (Hlen : (length (dd_get [] aid (response_times mc)) <= 100)%nat).
  { unfold dd_get. destruct (response_times mc !! aid) as [l|] eqn:E; simpl; [|lia].
    pose proof (replay_bounded history (init 100) (init_bounded 100) aid l E) as Hb.
    unfold mc in Hb. rewrite replay_window_size in Hb. exact Hb. }
  set (n := length _) in *. clearbody n.
  pose proof (small_window_divisor n Hlen) as Hd.
  split; [lia|]. split; [exact Hd|].
  rewrite Hd. field.
Qed.

End CollectorFacts.

(** ** FailureRecovery *)

Section BreakerFacts.
Import FailureRecovery.

Lemma dd_get_insert {V} (d v : V) (k : string) (m : gmap string V) :
  dd_get d k (<[k := v]> m) = v.
Proof. unfold dd_get. rewrite lookup_insert_eq. reflexivity. Qed.

Lemma handle_generic_failure aid error_type fr e :
  is_quota_error error_type = false ->
  is_auth_error error_type = false ->
  handle_request_failure aid error_type fr e =
    let n := (dd_get 0%Z aid (failure_counts fr) + 1)%Z in
    if (5 <=? n)%Z
    then (set_breaker
            (<[aid := {| b_status := Open;
                         retry_time := now e + inject_Z (backoff_time n);
                         b_type := CircuitBreaker |}]> (circuit_breaker fr))
            (bump_failures aid fr),
          (time_time e).2)
    else (bump_failures aid fr, e).
Proof.
  intros Hq Ha. unfold handle_request_failure. cbv zeta. rewrite Hq, Ha.
  unfold _activate_circuit_breaker. cbv zeta. simpl failure_counts.
  rewrite dd_get_insert. destruct (5 <=? _)%Z; reflexivity.
Qed.

(** C4. For an error kind outside the four classified ones, one failure
    raises the failure count by one; while the new count is below 5 the
    breaker records are untouched, so the availability check answers as before
    (true for an account without a record); from 5 on the record becomes open
    with retry time now + min(300 * 2^(count-5), 3600) seconds and the account
    is unavailable until then. The delay is 300 at count 5, 600 at count 6 and
    3600 from count 9 on, so also at count 12. *)
Theorem generic_failure_backoff (aid error_type : string) (fr : t) (e : Env) :
  is_quota_error error_type = false ->
  is_auth_error error_type = false ->
  let fr' := (handle_request_failure aid error_type fr e).1 in
  let n := (dd_get 0%Z aid (failure_counts fr) + 1)%Z in
  dd_get 0%Z aid (failure_counts fr') = n
  /\ ((n < 5)%Z ->
        circuit_breaker fr' = circuit_breaker fr
        /\ (forall e', (can_use_account aid fr' e').1.1 = (can_use_account aid fr e').1.1)
        /\ (circuit_breaker fr !! aid = None ->
            forall e', (can_use_account aid fr' e').1.1 = true))
  /\ ((5 <= n)%Z ->
        circuit_breaker fr' =
          <[aid := {| b_status := Open;
                      retry_time := now e + inject_Z (Z.min (300 * 2 ^ (n - 5)) 3600);
                      b_type := CircuitBreaker |}]> (circuit_breaker fr)
        /\ forall e', now e' < now e + inject_Z (Z.min (300 * 2 ^ (n - 5)) 3600) ->
                      (can_use_account aid fr' e').1.1 = false)
  /\ backoff_time 5 = 300%Z /\ backoff_time 6 = 600%Z /\ backoff_time 12 = 3600%Z
  /\ (forall k, (9 <= k)%Z -> backoff_time k = 3600%Z).
Proof.
  intros Hq Ha. cbv zeta.
  rewrite (handle_generic_failure aid error_type fr e Hq Ha). cbv zeta.
  set (n := (dd_get 0%Z aid (failure_counts fr) + 1)%Z).
  split; [|split; [|split; [|split; [|split; [|split]]]]].
  - destruct (5 <=? n)%Z; simpl; apply dd_get_insert.
  - intros Hn. apply Z.leb_gt in Hn. rewrite Hn. simpl.
    split; [reflexivity|]. split.
    + intros e'. unfold can_use_account. simpl.
      destruct (circuit_breaker fr !! aid) as [cb|]; [|reflexivity].
      destruct (b_status cb); [|reflexivity].
      simpl. destruct (Qle_bool _ _); reflexivity.
    + intros Hnone e'. unfold can_use_account. simpl. rewrite Hnone. reflexivity.
  - intros Hn. apply Z.leb_le in Hn. rewrite Hn. simpl.
    split; [reflexivity|].
    intros e' Hlt. unfold can_use_account. simpl.
    rewrite lookup_insert_eq. simpl.
    apply Qle_bool_false in Hlt. unfold backoff_time. rewrite Hlt. reflexivity.
  - reflexivity.
  - reflexivity.
  - reflexivity.
  - intros k Hk. unfold backoff_time.
    apply Z.min_r.
    assert (H : (2 ^ 4 <= 2 ^ (k - 5))%Z) by (apply Z.pow_le_mono_r; lia).
    change (2 ^ 4)%Z with 16%Z in H. lia.
Qed.

Lemma generic_failure_backoff_witness :
  (forall e', (can_use_account "a" (Scenario.after_timeouts 4) e').1.1 = true)
  /\ circuit_breaker (Scenario.after_timeouts 5) =
       {[ "a" := {| b_status := Open; retry_time := 0 + inject_Z 300;
                    b_type := CircuitBreaker |} ]}.
Proof.
  split.
  - destruct (generic_failure_backoff "a" "timeout" (Scenario.after_timeouts 3)
                (Scenario.env_at 0) eq_refl eq_refl) as (_ & Hlow & _).
    destruct Hlow as (_ & _ & Hfree); [vm_compute; reflexivity|].
    apply Hfree. vm_compute. reflexivity.
  - destruct (generic_failure_backoff "a" "timeout" (Scenario.after_timeouts 4)
                (Scenario.env_at 0) eq_refl eq_refl) as (_ & _ & Hhigh & _).
    destruct Hhigh as (Hrec & _); [vm_compute; discriminate|].
    exact Hrec.
Defined.

(** C5. After one failure of kind rate_limit reported at time t0, every
    availability check made before t0 + 300 answers false and leaves the record
    as it is; the first check at or after t0 + 300 answers true and turns the
    record half-open; every later check answers true while the record stays
    half-open. *)
Theorem rate_limit_cooldown (aid : string) (fr : t) (e0 e1 : Env)
    (early late : list Env) :
  Forall (fun e => now e < now e0 + 300) early ->
  now e0 + 300 <= now e1 ->
  let fr1 := (handle_request_failure aid "rate_limit" fr e0).1 in
  let fr2 := set_breaker
               (<[aid := {| b_status := HalfOpen;
                            retry_time := now e0 + 300;
                            b_type := Temporary |}]> (circuit_breaker fr1)) fr1 in
  poll aid fr1 early = (repeat false (length early), fr1)
  /\ (can_use_account aid fr1 e1).1 = (true, fr2)
  /\ poll aid fr2 late = (repeat true (length late), fr2).
Proof.
  intros Hearly Hlate. cbv zeta.
  unfold handle_request_failure, _mark_temporary_failure. simpl.
  set (fr1 := set_breaker _ _).
  assert (Hrec : circuit_breaker fr1 !! aid =
                 Some {| b_status := Open; retry_time := now e0 + 300;
                         b_type := Temporary |}).
  { unfold fr1. simpl. apply lookup_insert_eq. }
  split; [|split].
  - induction Hearly as [|e es He _ IH]; [reflexivity|].
    simpl. unfold can_use_account. rewrite Hrec. simpl.
    apply Qle_bool_false in He. rewrite He. rewrite IH. reflexivity.
  - unfold can_use_account. rewrite Hrec. simpl.
    apply Qle_bool_iff in Hlate. rewrite Hlate. reflexivity.
  - induction late as [|e es IH]; [reflexivity|].
    simpl. unfold can_use_account at 1. simpl.
    rewrite lookup_insert_eq. simpl. rewrite IH. reflexivity.
Qed.

Lemma rate_limit_cooldown_witness :
  (poll "a" (handle_request_failure "a" "rate_limit" init (Scenario.env_at 0)).1
     [Scenario.env_at 10; Scenario.env_at 299]).1 = [false; false]
  /\ (can_use_account "a"
        (handle_request_failure "a" "rate_limit" init (Scenario.env_at 0)).1
        (Scenario.env_at 300)).1.1 = true.
Proof.
  destruct (rate_limit_cooldown "a" init (Scenario.env_at 0) (Scenario.env_at 300)
              [Scenario.env_at 10; Scenario.env_at 299]
              [Scenario.env_at 1000; Scenario.env_at 0]) as (Hearly & Hfirst & _).
  - repeat constructor.
  - vm_compute. discriminate.
  - split.
    + rewrite Hearly. reflexivity.
    + rewrite Hfirst. reflexivity.
Defined.

End BreakerFacts.

(** ** HealthMonitor *)

Section MonitorFacts.
Import HealthMonitor.

Lemma check_miss account hm e :
  cache_valid hm (id account) (now e) = None ->
  check_account_health account hm e =
    (verdict account, store_verdict account (now e) hm, (time_time e).2).
Proof.
  intros Hm. unfold check_account_health. simpl. rewrite Hm. reflexivity.
Qed.

Lemma check_hit account hm e en :
  cache_valid hm (id account) (now e) = Some en ->
  check_account_health account hm e = (healthy en, hm, (time_time e).2).
Proof.
  intros Hm. unfold check_account_health. simpl. rewrite Hm. reflexivity.
Qed.

(** C6. If a call at time t computed the verdict of an account, then a call
    for the same account id at a time less than checkInterval after t returns
    that verdict and leaves the cache as it is, whatever the account's fields
    are by then; a call at checkInterval or more after t computes the verdict
    from the account's current fields and stores it. *)
Theorem health_verdict_cached (account later : Account) (hm : t) (e0 e : Env) :
  cache_valid hm (id account) (now e0) = None ->
  id later = id account ->
  let '(v, hm1, _) := check_account_health account hm e0 in
  v = verdict account
  /\ (now e - now e0 < inject_Z (check_interval hm) ->
        check_account_health later hm1 e = (v, hm1, (time_time e).2))
  /\ (inject_Z (check_interval hm) <= now e - now e0 ->
        check_account_health later hm1 e =
          (verdict later, store_verdict later (now e) hm1, (time_time e).2)).
Proof.
  intros Hmiss Hid. rewrite (check_miss _ _ _ Hmiss).
  split; [reflexivity|]. split.
  - intros Hlt.
    apply (check_hit later _ e
             {| healthy := verdict account;
                measured := _measure_health_metrics account;
                timestamp := now e0 |}).
    unfold cache_valid, store_verdict. simpl. rewrite Hid, lookup_insert_eq. simpl.
    apply Qltb_lt in Hlt. rewrite Hlt. reflexivity.
  - intros Hge. apply check_miss.
    unfold cache_valid, store_verdict. simpl. rewrite Hid, lookup_insert_eq. simpl.
    apply Qltb_ge in Hge. rewrite Hge. reflexivity.
Qed.

Lemma health_verdict_cached_witness :
  let hm1 := (check_account_health Scenario.mid (init 30) (Scenario.env_at 100)).1.2 in
  verdict Scenario.mid = true
  /\ verdict (Scenario.deactivate Scenario.mid) = false
  /\ (check_account_health (Scenario.deactivate Scenario.mid) hm1
        (Scenario.env_at 129)).1.1 = true
  /\ (check_account_health (Scenario.deactivate Scenario.mid) hm1
        (Scenario.env_at 130)).1.1 = false.
Proof.
  cbv zeta. split; [reflexivity|]. split; [reflexivity|]. split.
  - pose proof (health_verdict_cached Scenario.mid (Scenario.deactivate Scenario.mid)
                  (init 30) (Scenario.env_at 100) (Scenario.env_at 129) eq_refl eq_refl)
      as Hc.
    destruct (check_account_health Scenario.mid (init 30) (Scenario.env_at 100))
      as [[v hm1] e1].
    destruct Hc as (Hv & Hhit & _). simpl.
    rewrite Hhit; [rewrite Hv; reflexivity | vm_compute; reflexivity].
  - pose proof (health_verdict_cached Scenario.mid (Scenario.deactivate Scenario.mid)
                  (init 30) (Scenario.env_at 100) (Scenario.env_at 130) eq_refl eq_refl)
      as Hc.
    destruct (check_account_health Scenario.mid (init 30) (Scenario.env_at 100))
      as [[v hm1] e1].
    destruct Hc as (_ & _ & Hexp). simpl.
    rewrite Hexp; [reflexivity | vm_compute; discriminate].
Defined.

End MonitorFacts.

(** ** WeightedRoundRobin *)

Section RotationFacts.
Import WeightedRoundRobin.
Local Open Scope Z_scope.

Section WeightSums.

Lemma at_key_insert_eq (cw : gmap string Z) k v : at_key (<[k := v]> cw) k = v.
Proof. unfold at_key. rewrite lookup_insert_eq. reflexivity. Qed.

Lemma at_key_insert_ne (cw : gmap string Z) k k' v :
  k <> k' -> at_key (<[k := v]> cw) k' = at_key cw k'.
Proof. intros H. unfold at_key. rewrite lookup_insert_ne by done. reflexivity. Qed.

Lemma weight_sum_insert_notin ks : forall (cw : gmap string Z) k v,
  k ∉ ks -> weight_sum ks (<[k := v]> cw) = weight_sum ks cw.
Proof.
  induction ks as [|k0 ks IH]; intros cw k v Hk; [reflexivity|].
  apply not_elem_of_cons in Hk as [Hne Hk].
  unfold weight_sum in *. simpl. rewrite at_key_insert_ne by done.
  rewrite IH by done. reflexivity.
Qed.

Lemma weight_sum_insert ks : forall (cw : gmap string Z) k v,
  NoDup ks -> k ∈ ks ->
  weight_sum ks (<[k := v]> cw) = weight_sum ks cw - at_key cw k + v.
Proof.
  induction ks as [|k0 ks IH]; intros cw k v Hnd Hk.
  - apply elem_of_nil in Hk. contradiction.
  - apply NoDup_cons in Hnd as [Hnotin Hnd].
    change (weight_sum (k0 :: ks) (<[k:=v]> cw))
      with (at_key (<[k:=v]> cw) k0 + weight_sum ks (<[k:=v]> cw)).
    change (weight_sum (k0 :: ks) cw) with (at_key cw k0 + weight_sum ks cw).
    destruct (decide (k = k0)) as [->|Hne].
    + rewrite at_key_insert_eq, weight_sum_insert_notin by done. lia.
    + apply elem_of_cons in Hk as [Hk|Hk]; [contradiction|].
      rewrite at_key_insert_ne by done. rewrite IH by done. lia.
Qed.

Lemma weight_sum_ext ks (cw cw' : gmap string Z) :
  (forall k, at_key cw' k = at_key cw k) -> weight_sum ks cw' = weight_sum ks cw.
Proof.
  intros H. unfold weight_sum. f_equal. apply map_ext. intros k. apply H.
Qed.

Lemma weight_sum_zero_nonneg ks (cw : gmap string Z) :
  ks <> [] -> weight_sum ks cw = 0 -> exists k, k ∈ ks /\ 0 <= at_key cw k.
Proof.
  intros Hne Hsum.
  destruct (decide (Forall (fun k => at_key cw k < 0) ks)) as [Hall|Hex].
  - exfalso. assert (weight_sum ks cw < 0); [|lia]. clear Hsum.
    destruct ks as [|k0 ks]; [contradiction|]. clear Hne.
    revert k0 Hall. induction ks as [|k1 ks IH]; intros k0 Hall.
    + apply Forall_cons in Hall as [H0 _]. unfold weight_sum. simpl. lia.
    + apply Forall_cons in Hall as [H0 Hall]. specialize (IH _ Hall).
      change (weight_sum (k0 :: k1 :: ks) cw)
        with (at_key cw k0 + weight_sum (k1 :: ks) cw). lia.
  - apply not_Forall_Exists in Hex; [|intros k; apply _].
    apply Exists_exists in Hex as (k & Hk & Hge). exists k. unfold compose in Hge. split; [exact Hk|lia].
Qed.

End WeightSums.

Section ScanFacts.
Variable h : Heap.

Lemma refresh_keeps_current l : forall s k,
  at_key (current_weights (refresh_weights h l s)) k
  = at_key (current_weights s) k.
Proof.
  unfold refresh_weights. generalize (deref h l) as pool. intros pool.
  induction l as [|r rs IH]; intros s k; simpl; [reflexivity|].
  rewrite IH. simpl.
  destruct (current_weights s !! id (h r)) eqn:E; [reflexivity|].
  destruct (decide (id (h r) = k)) as [<-|Hne].
  - rewrite at_key_insert_eq. unfold at_key. rewrite E. reflexivity.
  - apply at_key_insert_ne. exact Hne.
Qed.

Lemma refresh_total_positive l : forall s r,
  r ∈ l -> 1 <= at_key (total_weights (refresh_weights h l s)) (id (h r)).
Proof.
  unfold refresh_weights. generalize (deref h l) as pool. intros pool.
  assert (Hkeep : forall rs s k,
            1 <= at_key (total_weights s) k ->
            1 <= at_key (total_weights
                   (fold_left
                      (fun s r =>
                         {| current_weights :=
                              match current_weights s !! id (h r) with
                              | Some _ => current_weights s
                              | None => <[id (h r) := 0]> (current_weights s)
                              end;
                            total_weights :=
                              <[id (h r) :=
                                  Z.max 1 (py_int
                                    (AccountScorer.calculate_account_score (h r) pool * 100))]>
                                (total_weights s) |}) rs s)) k).
  { induction rs as [|r rs IH]; intros s k Hk; simpl; [exact Hk|].
    apply IH. simpl.
    destruct (decide (id (h r) = k)) as [<-|Hne].
    - rewrite at_key_insert_eq. lia.
    - rewrite at_key_insert_ne by done. exact Hk. }
  induction l as [|r0 rs IH]; intros s r Hr.
  - apply elem_of_nil in Hr. contradiction.
  - simpl. apply elem_of_cons in Hr as [->|Hr].
    + apply Hkeep. simpl. rewrite at_key_insert_eq. lia.
    + apply IH. exact Hr.
Qed.

Lemma fold_add_acc xs : forall a, fold_left Z.add xs a = a + fold_left Z.add xs 0.
Proof.
  induction xs as [|x xs IH]; intros a; simpl; [lia|].
  rewrite (IH (a + x)), (IH (0 + x)). lia.
Qed.

Variable tw : gmap string Z.

Lemma scan_weight_sum ks l : forall cw m sel,
  NoDup ks -> (forall r, r ∈ l -> id (h r) ∈ ks) ->
  weight_sum ks (fold_left (scan_step h tw) l (cw, m, sel)).1.1
  = weight_sum ks cw + total_weight_sum h tw l.
Proof.
  unfold total_weight_sum.
  induction l as [|r rs IH]; intros cw m sel Hnd Hin; simpl; [lia|].
  assert (Hr : id (h r) ∈ ks) by (apply Hin; left).
  assert (Hrs : forall r', r' ∈ rs -> id (h r') ∈ ks) by (intros r' Hr'; apply Hin; right; exact Hr').
  rewrite (fold_add_acc _ (at_key tw (id (h r)))).
  destruct (m <? _); rewrite IH by assumption;
    rewrite weight_sum_insert by assumption; lia.
Qed.

Lemma scan_selected l : forall cw m sel r,
  (fold_left (scan_step h tw) l (cw, m, sel)).2 = Some r ->
  sel = Some r \/ r ∈ l.
Proof.
  induction l as [|r0 rs IH]; intros cw m sel r H; simpl in H; [left; exact H|].
  destruct (m <? _); apply IH in H as [H|H].
  - injection H as <-. right. left.
  - right. right. exact H.
  - left. exact H.
  - right. right. exact H.
Qed.

Lemma scan_finds l : forall cw m sel,
  (sel = None -> m = -1) ->
  (forall r, r ∈ l -> 0 <= at_key tw (id (h r))) ->
  (sel <> None \/
   exists r, r ∈ l /\ 0 <= at_key cw (id (h r)) /\ 1 <= at_key tw (id (h r))) ->
  (fold_left (scan_step h tw) l (cw, m, sel)).2 <> None.
Proof.
  induction l as [|r0 rs IH]; intros cw m sel Hinv Htw Hex; simpl.
  - destruct Hex as [H|(r & Hr & _)]; [exact H|].
    apply elem_of_nil in Hr. contradiction.
  - assert (Htw' : forall r, r ∈ rs -> 0 <= at_key tw (id (h r)))
      by (intros r Hr; apply Htw; right; exact Hr).
    rewrite at_key_insert_eq.
    destruct (m <? _) eqn:E.
    + apply IH; [discriminate | exact Htw' | left; discriminate].
    + apply Z.ltb_ge in E. apply IH; [exact Hinv | exact Htw' |].
      destruct sel as [r'|]; [left; discriminate|].
      specialize (Hinv eq_refl). subst m.
      destruct Hex as [H|(r & Hr & Hc & Ht)]; [contradiction|].
      apply elem_of_cons in Hr as [->|Hr]; [lia|].
      right. exists r. split; [exact Hr|]. split; [|exact Ht].
      destruct (decide (id (h r0) = id (h r))) as [Heq|Hne].
      * rewrite <- Heq, at_key_insert_eq. rewrite <- Heq in Hc.
        assert (Hr0 : r0 ∈ r0 :: rs) by left. specialize (Htw r0 Hr0). lia.
      * rewrite at_key_insert_ne by done. exact Hc.
Qed.

End ScanFacts.

Section CallFacts.

Lemma rotation_unfold h accounts s :
  select_account h accounts s =
    match active_refs h accounts with
    | [] => (None, s)
    | _ =>
      let s1 := refresh_weights h (active_refs h accounts) s in
      let '(cw, _, selected_account) :=
        scan h (total_weights s1) (active_refs h accounts) (current_weights s1) in
      match selected_account with
      | Some r =>
        (Some r,
         {| current_weights :=
              <[id (h r) := at_key cw (id (h r))
                            - total_weight_sum h (total_weights s1)
                                (active_refs h accounts)]> cw;
            total_weights := total_weights s1 |})
      | None => (None, {| current_weights := cw;
                          total_weights := total_weights s1 |})
      end
    end.
Proof.
  unfold select_account, active_refs. destruct accounts; reflexivity.
Qed.

Lemma scan_step_weights h tw cw m sel r :
  exists m' sel',
    scan_step h tw (cw, m, sel) r =
      (<[id (h r) := at_key cw (id (h r)) + at_key tw (id (h r))]> cw, m', sel').
Proof.
  unfold scan_step. cbv zeta. destruct (_ <? _); eauto.
Qed.

Lemma scan_pointwise h tw l : forall cw m sel k,
  NoDup (map (fun r => id (h r)) l) ->
  at_key (fold_left (scan_step h tw) l (cw, m, sel)).1.1 k
  = at_key cw k
    + (if decide (k ∈ map (fun r => id (h r)) l) then at_key tw k else 0).
Proof.
  induction l as [|r rs IH]; intros cw m sel k Hnd.
  - simpl. lia.
  - cbn [fold_left map]. apply NoDup_cons in Hnd as [Hnotin Hnd].
    destruct (scan_step_weights h tw cw m sel r) as (m' & sel' & ->).
    rewrite IH by exact Hnd.
    destruct (decide (k = id (h r))) as [->|Hne].
    + rewrite at_key_insert_eq.
      rewrite (decide_False (P := id (h r) ∈ map _ rs)) by exact Hnotin.
      rewrite decide_True by left. lia.
    + rewrite at_key_insert_ne by done.
      destruct (decide (k ∈ map (fun r => id (h r)) rs)) as [Hin|Hout].
      * rewrite decide_True by (right; exact Hin). lia.
      * rewrite decide_False; [lia|].
        intros Hin'. apply elem_of_cons in Hin' as [?|?]; contradiction.
Qed.

Lemma select_preserves_sum ks h accounts s r s' :
  NoDup ks ->
  (forall a, a ∈ active_refs h accounts -> id (h a) ∈ ks) ->
  select_account h accounts s = (Some r, s') ->
  weight_sum ks (current_weights s') = weight_sum ks (current_weights s).
Proof.
  intros Hnd Hin. rewrite rotation_unfold.
  destruct (active_refs h accounts) as [|a0 l0] eqn:El; [discriminate|].
  rewrite <- El in *. cbv zeta.
  set (s1 := refresh_weights h (active_refs h accounts) s).
  unfold scan.
  destruct (fold_left _ _ _) as [[cw m] sel] eqn:Es.
  destruct sel as [r'|]; [|discriminate].
  intros [= <- <-]. simpl.
  pose proof (scan_weight_sum h (total_weights s1) ks (active_refs h accounts)
                (current_weights s1) (-1) None Hnd Hin) as Hsum.
  rewrite Es in Hsum. simpl in Hsum.
  pose proof (scan_selected h (total_weights s1) (active_refs h accounts)
                (current_weights s1) (-1) None r') as Hsel.
  rewrite Es in Hsel. destruct (Hsel eq_refl) as [?|Hr]; [discriminate|].
  rewrite weight_sum_insert by (auto using Hin).
  rewrite Hsum.
  rewrite (weight_sum_ext ks (current_weights s) (current_weights s1))
    by (intros k; apply refresh_keeps_current).
  lia.
Qed.

Lemma select_returns ks h accounts s :
  ks <> [] ->
  (forall k, k ∈ ks <-> k ∈ active_ids h accounts) ->
  weight_sum ks (current_weights s) = 0 ->
  exists r s', select_account h accounts s = (Some r, s').
Proof.
  intros Hne Hids Hzero.
  destruct (weight_sum_zero_nonneg ks _ Hne Hzero) as (k & Hk & Hge).
  apply Hids in Hk. unfold active_ids in Hk.
  apply list_elem_of_fmap in Hk as (r & -> & Hr).
  rewrite rotation_unfold.
  destruct (active_refs h accounts) as [|a0 l0] eqn:El.
  { apply elem_of_nil in Hr. contradiction. }
  rewrite <- El in *. cbv zeta.
  set (s1 := refresh_weights h (active_refs h accounts) s).
  pose proof (scan_finds h (total_weights s1) (active_refs h accounts)
                (current_weights s1) (-1) None (fun _ => eq_refl)) as Hfind.
  unfold scan.
  destruct (fold_left _ _ _) as [[cw m] sel].
  destruct sel as [r'|]; [eauto|].
  exfalso. apply Hfind; [| |reflexivity].
  - intros r' Hr'.
    pose proof (refresh_total_positive h (active_refs h accounts) s r' Hr'). fold s1 in H. lia.
  - right. exists r. split; [exact Hr|]. split.
    + unfold s1. rewrite refresh_keeps_current. exact Hge.
    + apply refresh_total_positive. exact Hr.
Qed.

Lemma run_calls_zero ks calls : forall s,
  NoDup ks ->
  Forall (fun c : Heap * list ref => forall k, k ∈ ks <-> k ∈ active_ids c.1 c.2) calls ->
  weight_sum ks (current_weights s) = 0 ->
  weight_sum ks (current_weights (run_calls calls s).2) = 0
  /\ (ks <> [] -> Forall is_Some (run_calls calls s).1).
Proof.
  induction calls as [|[h accounts] rest IH]; intros s Hnd Hall Hzero.
  - simpl. split; [exact Hzero | intros _; constructor].
  - apply Forall_cons in Hall as [Hc Hall]. simpl in Hc. simpl.
    destruct (select_account h accounts s) as [sel s1] eqn:E1.
    destruct (run_calls rest s1) as [sels s2] eqn:E2.
    destruct ks as [|k0 ks'] eqn:Eks.
    + assert (Hact : active_refs h accounts = []).
      { destruct (active_refs h accounts) as [|a l] eqn:El; [reflexivity|].
        exfalso. assert (Hin : id (h a) ∈ active_ids h accounts).
        { unfold active_ids. rewrite El. left. }
        apply Hc in Hin. apply elem_of_nil in Hin. exact Hin. }
      rewrite rotation_unfold, Hact in E1. injection E1 as <- <-.
      specialize (IH s Hnd Hall Hzero). rewrite E2 in IH. simpl in *.
      split; [reflexivity | intros Hf; contradiction].
    + rewrite <- Eks in *.
      assert (Hne : ks <> []) by (rewrite Eks; discriminate).
      destruct (select_returns ks h accounts s Hne Hc Hzero) as (r & s' & Hsel).
      rewrite Hsel in E1. injection E1 as <- <-.
      assert (Hin : forall a, a ∈ active_refs h accounts -> id (h a) ∈ ks).
      { intros a Ha. apply Hc. unfold active_ids. apply list_elem_of_fmap. eauto. }
      pose proof (select_preserves_sum ks h accounts s r s' Hnd Hin Hsel) as Hpres.
      rewrite Hzero in Hpres.
      specialize (IH s' Hnd Hall Hpres). rewrite E2 in IH. simpl in *.
      destruct IH as [IH1 IH2].
      split; [exact IH1|]. intros _. constructor; [eexists; reflexivity | apply IH2, Hne].
Qed.

End CallFacts.

Lemma select_pointwise h accounts s r s' :
  NoDup (active_ids h accounts) ->
  select_account h accounts s = (Some r, s') ->
  forall k,
    at_key (current_weights s') k
    = at_key (current_weights s) k
      + (if decide (k ∈ active_ids h accounts) then at_key (total_weights s') k else 0)
      - (if decide (k = id (h r))
         then total_weight_sum h (total_weights s') (active_refs h accounts) else 0).
Proof.
  intros Hnd. rewrite rotation_unfold. unfold active_ids in *.
  destruct (active_refs h accounts) as [|a0 l0] eqn:El; [discriminate|].
  rewrite <- El in *. cbv zeta.
  set (s1 := refresh_weights h (active_refs h accounts) s).
  unfold scan.
  destruct (fold_left _ _ _) as [[cw m] sel] eqn:Es.
  destruct sel as [r'|]; [|discriminate].
  intros [= <- <-] k. simpl.
  pose proof (scan_pointwise h (total_weights s1) (active_refs h accounts)
                (current_weights s1) (-1) None) as Hpt.
  rewrite Es in Hpt. simpl in Hpt.
  assert (Hcur : forall k', at_key (current_weights s1) k' = at_key (current_weights s) k')
    by (intros k'; apply refresh_keeps_current).
  destruct (decide (k = id (h r'))) as [->|Hne].
  - rewrite at_key_insert_eq, Hpt, Hcur by exact Hnd. reflexivity.
  - rewrite at_key_insert_ne by done. rewrite Hpt, Hcur by exact Hnd. lia.
Qed.

(** C9. Let ks be a duplicate-free list of ids that covers the active
    candidates. Every call that returns an account leaves the sum of the
    current weights over ks unchanged; when the active candidates have distinct
    ids, each of them gains its total weight and the winner loses the sum of
    all their total weights; and from the empty (all-zero) weights, over any
    sequence of calls whose active candidate ids are exactly ks, the sum stays
    0 and every call returns an account. *)
Theorem rotation_weight_sum_invariant (ks : list string) :
  NoDup ks ->
  (forall h accounts s r s',
     (forall a, a ∈ active_refs h accounts -> id (h a) ∈ ks) ->
     select_account h accounts s = (Some r, s') ->
     weight_sum ks (current_weights s') = weight_sum ks (current_weights s))
  /\ (forall h accounts s r s',
        NoDup (active_ids h accounts) ->
        select_account h accounts s = (Some r, s') ->
        forall k,
          at_key (current_weights s') k
          = at_key (current_weights s) k
            + (if decide (k ∈ active_ids h accounts)
               then at_key (total_weights s') k else 0)
            - (if decide (k = id (h r))
               then total_weight_sum h (total_weights s') (active_refs h accounts)
               else 0))
  /\ (forall calls,
        Forall (fun c : Heap * list ref =>
                  forall k, k ∈ ks <-> k ∈ active_ids c.1 c.2) calls ->
        weight_sum ks (current_weights (run_calls calls init).2) = 0
        /\ (ks <> [] -> Forall is_Some (run_calls calls init).1)).
Proof.
  intros Hnd. split; [|split].
  - intros h accounts s r s' Hin Hsel.
    exact (select_preserves_sum ks h accounts s r s' Hnd Hin Hsel).
  - intros h accounts s r s' Hids Hsel.
    exact (select_pointwise h accounts s r s' Hids Hsel).
  - intros calls Hcalls. apply run_calls_zero; [exact Hnd | exact Hcalls |].
    unfold weight_sum, init, at_key. simpl. clear.
    induction ks as [|k ks' IH]; simpl; [reflexivity|].
    rewrite lookup_empty. simpl. exact IH.
Qed.

Lemma rotation_weight_sum_invariant_witness :
  weight_sum ["a"; "b"]%string
    (current_weights
       (run_calls [(Scenario.heap2, [0; 1]%nat); (Scenario.heap2, [0; 1]%nat);
                   (Scenario.heap2, [1; 0]%nat)] init).2) = 0
  /\ (run_calls [(Scenario.heap2, [0; 1]%nat); (Scenario.heap2, [0; 1]%nat);
                 (Scenario.heap2, [1; 0]%nat)] init).1
     = [Some 0%nat; Some 1%nat; Some 1%nat].
Proof.
  assert (Hnd : NoDup ["a"; "b"]%string).
  { apply NoDup_cons. split.
    - intros Hin. apply list_elem_of_singleton in Hin. discriminate.
    - apply NoDup_singleton. }
  destruct (rotation_weight_sum_invariant ["a"; "b"]%string Hnd) as (_ & _ & Hrun).
  split.
  - apply Hrun.
    constructor; [|constructor; [|constructor; [|constructor]]]; intros k; cbn [fst snd].
    + change (active_ids Scenario.heap2 [0; 1]%nat) with ["a"; "b"]%string. reflexivity.
    + change (active_ids Scenario.heap2 [0; 1]%nat) with ["a"; "b"]%string. reflexivity.
    + change (active_ids Scenario.heap2 [1; 0]%nat) with ["b"; "a"]%string.
      rewrite !elem_of_cons, !elem_of_nil. tauto.
  - vm_compute. reflexivity.
Defined.

End RotationFacts.

(** ** Sorting and random choice *)

Section Sorting.
Context {A : Type} (key : A -> Q).

Lemma insert_desc_perm x l : insert_desc key x l ≡ₚ x :: l.
Proof.
  induction l as [|y ys IH]; simpl; [reflexivity|].
  destruct (Qltb (key x) (key y)); [|reflexivity].
  rewrite IH. apply Permutation_swap.
Qed.

Lemma sorted_desc_perm l : sorted_desc key l ≡ₚ l.
Proof.
  induction l as [|x xs IH]; simpl; [reflexivity|].
  rewrite insert_desc_perm. rewrite IH. reflexivity.
Qed.

Lemma insert_desc_sorted x l :
  StronglySorted (desc key) l -> StronglySorted (desc key) (insert_desc key x l).
Proof.
  induction 1 as [|y ys Hs IH Hall]; simpl.
  - constructor; constructor.
  - destruct (Qltb (key x) (key y)) eqn:E.
    + apply Qltb_lt in E. constructor; [exact IH|].
      rewrite insert_desc_perm. constructor; [unfold desc; lra | exact Hall].
    + apply Qltb_ge in E. constructor; [constructor; assumption|].
      constructor; [exact E|].
      eapply Forall_impl; [exact Hall|]. unfold desc. intros z Hz. simpl in Hz. lra.
Qed.

Lemma sorted_desc_sorted l : StronglySorted (desc key) (sorted_desc key l).
Proof.
  induction l as [|x xs IH]; simpl; [constructor|].
  apply insert_desc_sorted. exact IH.
Qed.

End Sorting.

Lemma random_choice_nonempty {A} (l : list A) (e : Env) :
  l <> [] ->
  exists x, (random_choice l e).1 = Some x
            /\ nth_error l (draws e (drawn e) mod length l)%nat = Some x.
Proof.
  intros Hne. unfold random_choice. simpl.
  assert (Hlt : (draws e (drawn e) mod length l < length l)%nat).
  { apply Nat.mod_upper_bound. destruct l; [contradiction | simpl; lia]. }
  destruct (nth_error l _) as [x|] eqn:E.
  - exists x. split; reflexivity.
  - apply nth_error_None in E. lia.
Qed.

(** ** IntelligentScheduler *)

Section SchedulerFacts.
Import IntelligentScheduler.

Lemma score_table_lookup (h : Heap) pool (l : list ref) :
  forall (acc : gmap string Q) (r : ref),
  NoDup (map (fun r => id (h r)) l) -> r ∈ l ->
  fold_left (fun scores r => <[id (h r) := final_score (h r) pool]> scores) l acc
    !! id (h r) = Some (final_score (h r) pool).
Proof.
  assert (Hout : forall l (acc : gmap string Q) k,
            k ∉ map (fun r => id (h r)) l ->
            fold_left (fun scores r => <[id (h r) := final_score (h r) pool]> scores) l acc
              !! k = acc !! k).
  { clear l. induction l as [|r0 rs IH]; intros acc k Hk; simpl; [reflexivity|].
    simpl in Hk. apply not_elem_of_cons in Hk as [Hne Hk].
    rewrite IH by exact Hk. apply lookup_insert_ne. congruence. }
  induction l as [|r0 rs IH]; intros acc r Hnd Hr.
  - apply elem_of_nil in Hr. contradiction.
  - simpl in Hnd. apply NoDup_cons in Hnd as [Hnotin Hnd]. simpl.
    apply elem_of_cons in Hr as [->|Hr].
    + rewrite Hout by exact Hnotin. apply lookup_insert_eq.
    + apply IH; assumption.
Qed.

(** C1 (amended). For every non-empty candidate list of size count, the
    composite strategy ranks the candidates in descending order of their entry
    in the score table (for candidates with distinct ids, the
    scheduler-weighted composite) and returns the candidate at position
    (draw mod k) of that ranking, where k = max(1, floor(count/5)); so the pick
    comes from exactly the top k candidates. *)
Theorem intelligent_selection_top_fifth (accounts : list ref) (w : World) :
  accounts <> [] ->
  let h := heap w in
  let score := score_of (score_table h accounts) h in
  let sorted_accounts := ranked h accounts in
  let k := Nat.max 1 (length accounts / 5) in
  let draw := draws (env w) (drawn (env w)) in
  sorted_accounts ≡ₚ accounts
  /\ StronglySorted (desc score) sorted_accounts
  /\ (NoDup (map (fun r => id (h r)) accounts) ->
      forall r, r ∈ accounts -> score r = final_score (h r) (deref h accounts))
  /\ (1 <= k <= length accounts)%nat
  /\ (draw mod k < k)%nat
  /\ exists r, nth_error sorted_accounts (draw mod k)%nat = Some r
               /\ (_intelligent_selection accounts w).1 = Ok (Some r).
Proof.
  intros Hne. cbv zeta.
  pose proof (sorted_desc_perm
                (score_of (score_table (heap w) accounts) (heap w)) accounts)
    as Hperm.
  assert (Hlen : length (ranked (heap w) accounts) = length accounts).
  { unfold ranked. rewrite Hperm. reflexivity. }
  assert (Hpos : (1 <= length accounts)%nat) by (destruct accounts; [contradiction | simpl; lia]).
  assert (Hk : (1 <= Nat.max 1 (length accounts / 5) <= length accounts)%nat).
  { split; [lia|]. pose proof (Nat.Div0.div_le_upper_bound (length accounts) 5 (length accounts)).
    apply Nat.max_lub; [exact Hpos|]. apply H. lia. }
  split; [exact Hperm|]. split; [apply sorted_desc_sorted|].
  split.
  { intros Hnd r Hr. unfold score_of, score_table.
    rewrite score_table_lookup by assumption. reflexivity. }
  split; [exact Hk|].
  split; [apply Nat.mod_upper_bound; lia|].
  unfold _intelligent_selection.
  destruct accounts as [|a0 l0] eqn:Ea; [contradiction|]. rewrite <- Ea in *.
  rewrite Hlen. unfold top_percent.
  set (top := firstn _ _).
  assert (Htop : length top = Nat.max 1 (length accounts / 5)).
  { unfold top. rewrite length_firstn, Hlen. lia. }
  assert (Hne' : top <> []) by (intros E; rewrite E in Htop; simpl in Htop; lia).
  destruct (random_choice_nonempty top (env w) Hne') as (x & Hx & Hix).
  destruct (random_choice top (env w)) as [pick e1]. simpl in Hx. subst pick.
  exists x. split; [|reflexivity].
  rewrite Htop in Hix. unfold top in Hix.
  rewrite nth_error_firstn in Hix.
  destruct (_ <? _)%nat; [exact Hix | discriminate].
Qed.

Lemma intelligent_selection_top_fifth_witness :
  (_intelligent_selection Scenario.six (Scenario.world6 7)).1 = Ok (Some 5%nat).
Proof.
  destruct (intelligent_selection_top_fifth Scenario.six (Scenario.world6 7))
    as (_ & _ & _ & _ & _ & r & Hnth & Hres).
  - discriminate.
  - vm_compute in Hnth. injection Hnth as <-. exact Hres.
Defined.

(** C1 as stated fails: with six candidates the claim draws from the top
    ceil(6/5) = 2, but the code draws from the top max(1, 6 // 5) = 1; whatever
    the draw, the best-ranked candidate is returned and the second-ranked one
    never is. *)
Lemma intelligent_selection_six_candidates :
  ((6 + 4) / 5 = 2)%nat
  /\ top_percent (length Scenario.six) = 1%nat
  /\ firstn 2 (ranked Scenario.heap6 Scenario.six) = [5; 4]%nat
  /\ forall d, (_intelligent_selection Scenario.six (Scenario.world6 d)).1
               = Ok (Some 5%nat).
Proof.
  split; [reflexivity|]. split; [reflexivity|].
  split; [vm_compute; reflexivity|].
  intros d. unfold _intelligent_selection, Scenario.six, Scenario.world6.
  cbn [heap env init].
  assert (Hranked : ranked Scenario.heap6 [0; 1; 2; 3; 4; 5]%nat = [5; 4; 3; 2; 1; 0]%nat)
    by (vm_compute; reflexivity).
  rewrite Hranked.
  change (firstn (top_percent (length [5; 4; 3; 2; 1; 0]%nat)) [5; 4; 3; 2; 1; 0]%nat)
    with [5%nat].
  unfold random_choice, Scenario.env_of. cbn [draws drawn length fst].
  rewrite Nat.mod_1_r. reflexivity.
Qed.

Lemma filter_step_stats st r : stats (filter_step st r).2 = stats st.2.
Proof.
  destruct st as [available w]. unfold filter_step.
  destruct (MetricsCollector.get_metrics _ _) as [snap mc].
  destruct (HealthMonitor.check_account_health _ _ _) as [[is_healthy hm] e1].
  destruct is_healthy; [|reflexivity].
  destruct (FailureRecovery.can_use_account _ _ _) as [[usable fr] e2].
  destruct usable; reflexivity.
Qed.

Lemma filter_stats accounts : forall st,
  stats (fold_left filter_step accounts st).2 = stats st.2.
Proof.
  induction accounts as [|r rs IH]; intros st; simpl; [reflexivity|].
  rewrite IH. apply filter_step_stats.
Qed.

Lemma apply_stats algorithm accounts w :
  stats (_apply_selection_algorithm algorithm accounts w).2 = stats w.
Proof.
  unfold _apply_selection_algorithm.
  destruct (String.eqb algorithm "cost_first"); [reflexivity|].
  destruct (String.eqb algorithm "weighted_round_robin").
  { destruct (WeightedRoundRobin.select_account _ _ _) as [sel rr]. reflexivity. }
  destruct (String.eqb algorithm "intelligent").
  { unfold _intelligent_selection. destruct accounts; [reflexivity|].
    destruct (random_choice _ _) as [[pick|] e1]; reflexivity. }
  destruct (random_choice _ _) as [[pick|] e1]; reflexivity.
Qed.

Lemma stats_eq w w' :
  stats w' = stats w ->
  total_selections w' = total_selections w
  /\ avg_selection_time w' = avg_selection_time w
  /\ algorithm_usage w' = algorithm_usage w.
Proof. unfold stats. intros [= -> -> ->]. auto. Qed.

Lemma select_account_unfold accounts context w :
  select_account accounts context w =
    match select_body (now (env w)) accounts context (set_env (time_time (env w)).2 w) with
    | (Ok result, w') => (Ok result, w')
    | (Raised msg, w') =>
      let w'' := set_env (print ("Selection failed, using fallback: " ++ msg) (env w')) w' in
      match accounts with
      | [] => (Ok None, w'')
      | _ =>
        let '(pick, e1) := random_choice accounts (env w'') in
        match pick with
        | Some r => (Ok (Some r), set_env e1 w'')
        | None => (Raised "IndexError", set_env e1 w'')
        end
      end
    end.
Proof. reflexivity. Qed.

Lemma select_body_unfold start_time accounts context w :
  select_body start_time accounts context w =
    let '(available_accounts, w2) :=
      _filter_available_accounts accounts
        (set_total_selections (total_selections w + 1)%Z w) in
    match available_accounts with
    | [] => (Raised "No available accounts", w2)
    | [r] => (Ok (Some r), w2)
    | _ =>
      match _apply_selection_algorithm (_select_algorithm context) available_accounts
              (count_usage (_select_algorithm context) w2) with
      | (Raised msg, w4) => (Raised msg, w4)
      | (Ok selected_account, w4) =>
        (Ok selected_account,
         _record_selection_metrics selected_account (now (env w4) - start_time)
           (set_env (time_time (env w4)).2 w4))
      end
    end.
Proof. reflexivity. Qed.

Lemma select_body_total start_time accounts context w :
  total_selections (select_body start_time accounts context w).2
  = (total_selections w + 1)%Z.
Proof.
  rewrite select_body_unfold.
  pose proof (filter_stats accounts ([], set_total_selections (total_selections w + 1)%Z w))
    as Hf.
  unfold _filter_available_accounts.
  destruct (fold_left _ _ _) as [available w2]. simpl in Hf.
  apply stats_eq in Hf as (Ht & _ & _). simpl in Ht.
  destruct available as [|r0 [|r1 rest]]; simpl; try exact Ht.
  pose proof (apply_stats (_select_algorithm context) (r0 :: r1 :: rest)
                (count_usage (_select_algorithm context) w2)) as Ha.
  destruct (_apply_selection_algorithm _ _ _) as [[sel|msg] w4];
    apply stats_eq in Ha as (Ht4 & _ & _); simpl in Ht4; simpl.
  - destruct sel; simpl; congruence.
  - congruence.
Qed.

(** C2 (amended). Every call to select raises the total-selection count by
    one. When at least two candidates survive filtering and the strategy
    returns an account, the call returns that account, replaces the running
    mean by (oldMean * (n - 1) + elapsed) / n with n the new total and elapsed
    the time between the first and the last clock read of the selection,
    raises the usage counter of the chosen strategy by one and stamps the
    chosen account's lastUsed. *)
Theorem select_account_bookkeeping (accounts : list ref)
    (context : option (gmap string bool)) (w : World) :
  let w' := (select_account accounts context w).2 in
  let n := (total_selections w + 1)%Z in
  let algorithm := _select_algorithm context in
  total_selections w' = n
  /\ forall r,
       (2 <= length (survivors accounts w).1)%nat ->
       (dispatched accounts context w).1 = Ok (Some r) ->
       let w4 := (dispatched accounts context w).2 in
       (select_account accounts context w).1 = Ok (Some r)
       /\ avg_selection_time w'
          = (avg_selection_time w * (inject_Z n - 1) + (now (env w4) - now (env w)))
            / inject_Z n
       /\ algorithm_usage w'
          = <[algorithm := (dd_get 0%Z algorithm (algorithm_usage w) + 1)%Z]>
              (algorithm_usage w)
       /\ last_used (metrics (heap w' r)) = Some (clock (env w4) (S (ticks (env w4)))).
Proof.
  cbv zeta. split.
  - rewrite select_account_unfold.
    pose proof (select_body_total (now (env w)) accounts context
                  (set_env (time_time (env w)).2 w)) as Hb.
    destruct (select_body _ _ _ _) as [[res|msg] w1]; simpl in Hb; [exact Hb|].
    cbv zeta. destruct accounts; [exact Hb|].
    destruct (random_choice _ _) as [[pick|] e1]; exact Hb.
  - intros r Hlen Hsel.
    rewrite select_account_unfold, select_body_unfold.
    unfold dispatched, survivors in *.
    change (set_total_selections (total_selections (set_env (time_time (env w)).2 w) + 1)
              (set_env (time_time (env w)).2 w)) with (entered w).
    pose proof (filter_stats accounts ([], entered w)) as Hf.
    unfold _filter_available_accounts in *.
    destruct (fold_left _ _ _) as [available w2]. simpl in Hf, Hlen.
    apply stats_eq in Hf as (Ht & Havg & Hu). simpl in Ht, Havg, Hu.
    destruct available as [|r0 [|r1 rest]]; [simpl in Hlen; lia | simpl in Hlen; lia |].
    pose proof (apply_stats (_select_algorithm context) (r0 :: r1 :: rest)
                  (count_usage (_select_algorithm context) w2)) as Ha.
    destruct (_apply_selection_algorithm _ _ _) as [res w4]. simpl in Hsel. subst res.
    apply stats_eq in Ha as (Ht4 & Havg4 & Hu4). simpl in Ht4, Havg4, Hu4.
    simpl. rewrite Ht4, Havg4, Hu4, Ht, Havg, Hu.
    split; [reflexivity|]. split; [reflexivity|]. split; [reflexivity|].
    unfold heap_set. rewrite Nat.eqb_refl. reflexivity.
Qed.

Lemma select_account_bookkeeping_witness :
  let w' := (select_account [0; 1]%nat None Scenario.warm).2 in
  (select_account [0; 1]%nat None Scenario.warm).1 = Ok (Some 0%nat)
  /\ total_selections w' = 1%Z
  /\ avg_selection_time w' == 3
  /\ algorithm_usage w' !! "intelligent"%string = Some 1%Z
  /\ last_used (metrics (heap w' 0%nat)) = Some (inject_Z 4).
Proof.
  cbv zeta.
  destruct (select_account_bookkeeping [0; 1]%nat None Scenario.warm) as (Htotal & Hrec).
  destruct (Hrec 0%nat) as (Hsel & Havg & Huse & Hstamp).
  - vm_compute. lia.
  - vm_compute. reflexivity.
  - split; [exact Hsel|]. split; [exact Htotal|].
    split; [rewrite Havg; vm_compute; reflexivity|].
    split; [rewrite Huse; vm_compute; reflexivity|].
    rewrite Hstamp. vm_compute. reflexivity.
Defined.

(** C2 as stated fails on both paths it names. With a single survivor, and
    with no survivor (fallback), the call returns an account although the
    clock has advanced, yet the running mean is not updated by the formula, no
    usage counter moves and the returned account's lastUsed stays unset. *)
Lemma select_account_unrecorded_paths :
  (let w' := (select_account [0%nat] None Scenario.warm).2 in
   (select_account [0%nat] None Scenario.warm).1 = Ok (Some 0%nat)
   /\ (survivors [0%nat] Scenario.warm).1 = [0%nat]
   /\ 0 < now (env w') - now (env Scenario.warm)
   /\ avg_selection_time w' = 0
   /\ algorithm_usage w' = algorithm_usage Scenario.warm
   /\ last_used (metrics (heap w' 0%nat)) = None)
  /\ (let w' := (select_account [0; 1]%nat None Scenario.fresh).2 in
      (select_account [0; 1]%nat None Scenario.fresh).1 = Ok (Some 0%nat)
      /\ (survivors [0; 1]%nat Scenario.fresh).1 = []
      /\ 0 < now (env w') - now (env Scenario.fresh)
      /\ avg_selection_time w' = 0
      /\ algorithm_usage w' = algorithm_usage Scenario.fresh
      /\ last_used (metrics (heap w' 0%nat)) = None).
Proof.
  split; cbv zeta; repeat split; vm_compute; reflexivity.
Qed.

(** [select_account] never lets an exception escape: whatever the [try]
    block raises, the fallback answers. *)
Lemma select_account_never_raises accounts context w :
  exists result, (select_account accounts context w).1 = Ok result.
Proof.
  rewrite select_account_unfold.
  destruct (select_body _ _ _ _) as [[res|msg] w1]; [eauto|].
  cbv zeta. destruct accounts as [|a0 l0] eqn:Ea; [eauto|]. rewrite <- Ea.
  assert (Hne : accounts <> []) by (rewrite Ea; discriminate).
  match goal with |- context [random_choice accounts ?e] =>
    destruct (random_choice_nonempty accounts e Hne) as (x & Hx & _);
    destruct (random_choice accounts e) as [pick e1] end.
  simpl in Hx. subst pick. eauto.
Qed.

(** An empty candidate list yields no account. *)
Lemma select_account_empty context w :
  (select_account [] context w).1 = Ok None.
Proof. reflexivity. Qed.

(** When filtering leaves no candidate, the pick comes from the unfiltered
    list, at the position the random draw decides. *)
Lemma select_account_fallback accounts context w :
  accounts <> [] ->
  (survivors accounts w).1 = [] ->
  exists r, (select_account accounts context w).1 = Ok (Some r) /\ r ∈ accounts.
Proof.
  intros Hne Hnone. rewrite select_account_unfold, select_body_unfold.
  unfold survivors in Hnone.
  change (set_total_selections (total_selections (set_env (time_time (env w)).2 w) + 1)
            (set_env (time_time (env w)).2 w)) with (entered w).
  destruct (_filter_available_accounts accounts (entered w)) as [available w2].
  simpl in Hnone. subst available. cbv zeta.
  destruct accounts as [|a0 l0] eqn:Ea; [contradiction|]. rewrite <- Ea in *.
  match goal with |- context [random_choice accounts ?e] =>
    destruct (random_choice_nonempty accounts e Hne) as (x & Hx & Hnth);
    destruct (random_choice accounts e) as [pick e1] end.
  simpl in Hx. subst pick. exists x. split; [reflexivity|].
  apply list_elem_of_In. eapply nth_error_In. exact Hnth.
Qed.

(** C3 at its failing input. Both accounts pass the filter on a health
    verdict cached while they were active; the cost-first and the rotation
    strategies then find no active candidate and [select_account] returns no
    account for a list of two. *)
Theorem select_account_none_on_cached_verdict :
  (survivors [0; 1]%nat Scenario.stale).1 = [0; 1]%nat
  /\ active_refs (heap Scenario.stale) [0; 1]%nat = []
  /\ (select_account [0; 1]%nat Scenario.cost_sensitive Scenario.stale).1 = Ok None
  /\ (select_account [0; 1]%nat Scenario.high_concurrency Scenario.stale).1 = Ok None.
Proof.
  repeat split; vm_compute; reflexivity.
Qed.

End SchedulerFacts.

(** * Further properties *)

(** ** AccountScorer, further *)

Section ScorerMore.
Import AccountScorer.

Lemma clamp_id x : 0 <= x <= 1 -> Qmax 0 (Qmin 1 x) == x.
Proof.
  intros [H0 H1]. rewrite (Q.min_r 1 x) by exact H1. apply Q.max_r. exact H0.
Qed.

Lemma normalize_inside v lo hi :
  lo < hi -> lo <= v <= hi -> normalize v lo hi == (v - lo) / (hi - lo).
Proof.
  intros Hlh [Hl Hh]. unfold normalize.
  destruct (Qeq_bool hi lo) eqn:E.
  - apply Qeq_bool_iff in E. lra.
  - apply clamp_id. split.
    + apply Qle_shift_div_l; lra.
    + apply Qle_shift_div_r; lra.
Qed.

(** X1. normalize(v, lo, hi) always lies in [0,1]; it is exactly 0.5 when hi
    equals lo; when lo < hi it is 0 at and below lo, 1 at and above hi,
    (v-lo)/(hi-lo) in between, and never decreases as v grows. *)
Theorem normalize_properties (v lo hi : Q) :
  0 <= normalize v lo hi <= 1
  /\ (hi == lo -> normalize v lo hi = 1 # 2)
  /\ (lo < hi ->
      normalize lo lo hi == 0 /\ normalize hi lo hi == 1
      /\ (lo <= v <= hi -> normalize v lo hi == (v - lo) / (hi - lo))
      /\ (v <= lo -> normalize v lo hi == 0)
      /\ (hi <= v -> normalize v lo hi == 1)
      /\ forall v', v <= v' -> normalize v lo hi <= normalize v' lo hi).
Proof.
  split; [apply normalize_range|]. split.
  - intros Heq. unfold normalize. apply Qeq_bool_iff in Heq. rewrite Heq. reflexivity.
  - intros Hlh.
    assert (Hlo : normalize lo lo hi == 0).
    { rewrite normalize_inside by lra. field. lra. }
    assert (Hhi : normalize hi lo hi == 1).
    { rewrite normalize_inside by lra. field. lra. }
    split; [exact Hlo|]. split; [exact Hhi|].
    split; [apply normalize_inside; exact Hlh|].
    split; [|split].
    + intros Hv. pose proof (normalize_mono v lo lo hi ltac:(lra) Hv).
      pose proof (normalize_range v lo hi). lra.
    + intros Hv. pose proof (normalize_mono hi v lo hi ltac:(lra) Hv).
      pose proof (normalize_range v lo hi). lra.
    + intros v' Hv. apply normalize_mono; lra.
Qed.

Lemma normalize_properties_witness :
  normalize 15 10 20 == 1 # 2 /\ normalize 5 10 20 == 0 /\ normalize 7 3 3 = 1 # 2.
Proof.
  destruct (normalize_properties 15 10 20) as (_ & _ & Hspread).
  destruct Hspread as (_ & _ & Hin & _); [reflexivity|].
  destruct (normalize_properties 5 10 20) as (_ & _ & Hspread).
  destruct Hspread as (_ & _ & _ & Hlow & _); [reflexivity|].
  destruct (normalize_properties 7 3 3) as (_ & Heq & _).
  split; [|split].
  - rewrite Hin; [reflexivity | split; discriminate].
  - apply Hlow. discriminate.
  - apply Heq. reflexivity.
Defined.


Lemma fold_min_const xs : forall x,
  Forall (fun y => y == x) xs -> fold_left Qmin xs x == x.
Proof.
  induction xs as [|y ys IH]; intros x Hall; simpl; [reflexivity|].
  apply Forall_cons in Hall as [Hy Hall].
  assert (Hm : Qmin x y == x) by (apply Q.min_l; lra).
  rewrite IH; [exact Hm|].
  eapply Forall_impl; [exact Hall|]. intros z Hz. simpl in Hz. lra.
Qed.

Lemma fold_max_const xs : forall x,
  Forall (fun y => y == x) xs -> fold_left Qmax xs x == x.
Proof.
  induction xs as [|y ys IH]; intros x Hall; simpl; [reflexivity|].
  apply Forall_cons in Hall as [Hy Hall].
  assert (Hm : Qmax x y == x) by (apply Q.max_l; lra).
  rewrite IH; [exact Hm|].
  eapply Forall_impl; [exact Hall|]. intros z Hz. simpl in Hz. lra.
Qed.

Lemma no_spread_const (l : list Q) (x : Q) :
  Forall (fun y => y == x) l -> Qltb (py_min l) (py_max l) = false.
Proof.
  intros Hall. apply Qltb_ge. destruct l as [|y ys]; simpl; [lra|].
  apply Forall_cons in Hall as [Hy Hall].
  assert (Hall' : Forall (fun z => z == y) ys).
  { eapply Forall_impl; [exact Hall|]. intros z Hz. simpl in Hz. lra. }
  rewrite (fold_min_const ys y Hall'), (fold_max_const ys y Hall'). lra.
Qed.

(** X2. The performance score lies in [0,1] for every account and candidate
    set, with no precondition; when all candidates have the same requests-per-
    minute and the same concurrency (also for an empty set) it is exactly the
    neutral 0.5. *)
Theorem performance_score_bounds (account : Account) (all_accounts : list Account) :
  0 <= calculate_performance_score account all_accounts <= 1
  /\ forall rpm cc,
       Forall (fun acc => requests_per_minute (metrics acc) == rpm
                          /\ current_concurrent (metrics acc) = cc) all_accounts ->
       calculate_performance_score account all_accounts == 1 # 2.
Proof.
  split; [apply performance_score_range|].
  intros rpm cc Hall. unfold calculate_performance_score. cbv zeta.
  assert (Ht : Forall (fun y => y == rpm)
                 (map (fun acc => requests_per_minute (metrics acc)) all_accounts)).
  { apply Forall_map. eapply Forall_impl; [exact Hall|]. intros a [H _]. exact H. }
  assert (Hc : Forall (fun y => y == inject_Z cc)
                 (map (fun acc => inject_Z (current_concurrent (metrics acc))) all_accounts)).
  { apply Forall_map. eapply Forall_impl; [exact Hall|]. intros a [_ H]. simpl.
    rewrite H. reflexivity. }
  rewrite (no_spread_const _ _ Ht), (no_spread_const _ _ Hc).
  destruct (map _ all_accounts); destruct (map _ all_accounts); reflexivity.
Qed.

Lemma performance_score_bounds_witness :
  calculate_performance_score Scenario.mid Scenario.pool3 == 1 # 2.
Proof.
  destruct (performance_score_bounds Scenario.mid Scenario.pool3) as (_ & Hflat).
  apply (Hflat 0 0%Z). repeat constructor.
Defined.

(** X3. For an account whose success rate is in [0,1] the health score lies in
    [0,1]; it is at most 0.8 when the account's status is not active and at
    least 0.2 when it is; when no candidate has a positive response time it
    equals 0.2 + 0.4*successRate + 0.2*availability. *)
Theorem health_score_bounds (account : Account) (all_accounts : list Account) :
  0 <= success_rate (metrics account) <= 1 ->
  0 <= calculate_health_score account all_accounts <= 1
  /\ (is_active account = false ->
      calculate_health_score account all_accounts <= 8 # 10)
  /\ (is_active account = true ->
      2 # 10 <= calculate_health_score account all_accounts)
  /\ (Forall (fun acc => avg_response_time (metrics acc) <= 0) all_accounts ->
      calculate_health_score account all_accounts
      == (2 # 10) + (4 # 10) * success_rate (metrics account)
         + (2 # 10) * (if is_active account then 1 else 0)).
Proof.
  intros Hs. split; [apply health_score_range; exact Hs|].
  unfold calculate_health_score. cbv zeta.
  set (rts := List.filter _ _).
  assert (Hr : 0 <= match rts with
                    | [] => 1 # 2
                    | _ => 1 - normalize (avg_response_time (metrics account))
                                 (py_min rts) (py_max rts)
                    end <= 1).
  { destruct rts; [lra|].
    match goal with |- context [normalize ?v ?lo ?hi] =>
      pose proof (normalize_range v lo hi) as Hn;
      set (n := normalize v lo hi) in *; clearbody n end. lra. }
  split; [|split].
  - intros Hina. rewrite Hina.
    set (x := match rts with [] => _ | _ => _ end) in *. clearbody x. lra.
  - intros Hact. rewrite Hact.
    set (x := match rts with [] => _ | _ => _ end) in *. clearbody x. lra.
  - intros Hall.
    assert (Hnil : rts = []).
    { unfold rts. clear -Hall. induction all_accounts as [|a l IH]; [reflexivity|].
      apply Forall_cons in Hall as [Ha Hall]. simpl.
      apply Qltb_ge in Ha. rewrite Ha. apply IH. exact Hall. }
    rewrite Hnil. destruct (is_active account); lra.
Qed.

Lemma health_score_bounds_witness :
  calculate_health_score Scenario.mid Scenario.pool3 == 8 # 10
  /\ calculate_health_score (Scenario.deactivate Scenario.mid) Scenario.pool3 <= 8 # 10.
Proof.
  assert (Hs : 0 <= success_rate (metrics Scenario.mid) <= 1) by (split; discriminate).
  destruct (health_score_bounds Scenario.mid Scenario.pool3 Hs) as (_ & _ & _ & Hflat).
  destruct (health_score_bounds (Scenario.deactivate Scenario.mid) Scenario.pool3 Hs)
    as (_ & Hoff & _).
  split.
  - rewrite Hflat; [vm_compute; reflexivity|]. repeat constructor; discriminate.
  - apply Hoff. reflexivity.
Defined.


(** X4. For an account with 0 < uptimeHours <= totalHours the reliability
    score lies in [0,1]; when no candidate has a positive recovery time and
    totalHours >= 1 it equals 0.6*uptimeHours/totalHours + 0.2. *)
Theorem reliability_score_bounds (account : Account) (all_accounts : list Account) :
  0 < uptime_hours (metrics account) ->
  0 < total_hours (metrics account) ->
  uptime_hours (metrics account) <= total_hours (metrics account) ->
  0 <= calculate_reliability_score account all_accounts <= 1
  /\ (Forall (fun acc => recovery_time_avg (metrics acc) <= 0) all_accounts ->
      1 <= total_hours (metrics account) ->
      calculate_reliability_score account all_accounts
      == (6 # 10) * (uptime_hours (metrics account) / total_hours (metrics account))
         + (2 # 10)).
Proof.
  intros Hu Ht Hut. split; [apply reliability_score_range; assumption|].
  intros Hall Hone. unfold calculate_reliability_score. cbv zeta.
  assert (Hnil : List.filter (fun v => Qltb 0 v)
                   (map (fun acc => recovery_time_avg (metrics acc)) all_accounts) = []).
  { clear -Hall. induction all_accounts as [|a l IH]; [reflexivity|].
    apply Forall_cons in Hall as [Ha Hall]. simpl.
    apply Qltb_ge in Ha. rewrite Ha. apply IH. exact Hall. }
  rewrite Hnil. rewrite (Q.max_r 1 (total_hours (metrics account))) by exact Hone.
  lra.
Qed.

Lemma reliability_score_bounds_witness :
  calculate_reliability_score Scenario.mid Scenario.pool3 == 8 # 10.
Proof.
  destruct (reliability_score_bounds Scenario.mid Scenario.pool3) as (_ & Hflat);
    [reflexivity | reflexivity | discriminate |].
  rewrite Hflat; [vm_compute; reflexivity | repeat constructor; discriminate | discriminate].
Defined.

(** X5. The scheduler's own composite (0.4*cost + 0.3*performance + 0.2*health
    + 0.1*reliability) that ranks candidates in the intelligent strategy lies
    in [0,1] for every account with success rate in [0,1] and 0 < uptimeHours
    <= totalHours. *)
Theorem final_score_range (account : Account) (pool : list Account) :
  0 <= success_rate (metrics account) <= 1 ->
  0 < uptime_hours (metrics account) ->
  0 < total_hours (metrics account) ->
  uptime_hours (metrics account) <= total_hours (metrics account) ->
  0 <= IntelligentScheduler.final_score account pool <= 1.
Proof.
  intros Hs Hu Ht Hut. unfold IntelligentScheduler.final_score.
  pose proof (cost_score_range account pool).
  pose proof (health_score_range account pool Hs).
  pose proof (performance_score_range account pool).
  pose proof (reliability_score_range account pool Hu Ht Hut).
  unfold IntelligentScheduler.w_cost_priority, IntelligentScheduler.w_performance,
    IntelligentScheduler.w_load_balance, IntelligentScheduler.w_reliability.
  lra.
Qed.

Lemma final_score_range_witness :
  0 <= IntelligentScheduler.final_score Scenario.cheap Scenario.pool3 <= 1.
Proof.
  apply (final_score_range Scenario.cheap Scenario.pool3);
    [split; discriminate | reflexivity | reflexivity | discriminate].
Defined.

End ScorerMore.

(** ** MetricsCollector, further *)

Section CollectorMore.
Import MetricsCollector.

Lemma dd_get_insert_ne {V} (d v : V) (k k' : string) (m : gmap string V) :
  k <> k' -> dd_get d k' (<[k := v]> m) = dd_get d k' m.
Proof. intros H. unfold dd_get. rewrite lookup_insert_ne by done. reflexivity. Qed.

Lemma deque_append_positive n d x :
  Forall (fun c => 0 < c) d -> 0 < x -> Forall (fun c => 0 < c) (deque_append n d x).
Proof.
  intros Hd Hx. unfold deque_append. cbv zeta.
  assert (Hall : Forall (fun c => 0 < c) (d ++ [x])).
  { apply Forall_app. split; [exact Hd|]. constructor; [exact Hx | constructor]. }
  destruct (n <? _)%nat; [|exact Hall].
  destruct (d ++ [x]); [constructor|]. apply Forall_cons in Hall as [_ H]. exact H.
Qed.

Lemma init_consistent ws : counts_consistent (init ws).
Proof.
  split.
  - intros k. unfold dd_get. simpl. rewrite lookup_empty. simpl. lia.
  - intros k l H. simpl in H. rewrite lookup_empty in H. discriminate.
Qed.

Lemma record_request_consistent aid rt ok cost mc :
  counts_consistent mc -> counts_consistent (record_request aid rt ok cost mc).
Proof.
  intros [Hc Hp]. split.
  - intros k. unfold record_request. simpl. specialize (Hc k).
    destruct (decide (aid = k)) as [->|Hne].
    + rewrite dd_get_insert. destruct ok.
      * rewrite dd_get_insert. lia.
      * lia.
    + rewrite dd_get_insert_ne by done. destruct ok.
      * rewrite dd_get_insert_ne by done. exact Hc.
      * exact Hc.
  - intros k l. unfold record_request. simpl.
    destruct (Qltb 0 cost) eqn:E; [|apply Hp].
    apply Qltb_lt in E.
    destruct (decide (aid = k)) as [->|Hne].
    + rewrite lookup_insert_eq. intros [= <-].
      apply deque_append_positive; [|exact E].
      unfold dd_get. destruct (cost_history mc !! k) as [l0|] eqn:El; simpl.
      * eapply Hp. exact El.
      * constructor.
    + rewrite lookup_insert_ne by done. apply Hp.
Qed.

Lemma replay_consistent history : forall mc,
  counts_consistent mc -> counts_consistent (replay history mc).
Proof.
  induction history as [|o os IH]; intros mc H; simpl; [exact H|].
  apply IH. apply record_request_consistent. exact H.
Qed.

Lemma py_sum_nonneg l : Forall (fun c => 0 < c) l -> 0 <= py_sum l.
Proof.
  unfold py_sum.
  assert (H : forall acc, 0 <= acc -> Forall (fun c => 0 < c) l -> 0 <= fold_left Qplus l acc).
  { induction l as [|x xs IH]; intros acc Hacc Hall; simpl; [exact Hacc|].
    apply Forall_cons in Hall as [Hx Hall]. apply IH; [lra | exact Hall]. }
  apply H. lra.
Qed.

(** X6. After any history of recorded requests, for any window size and
    account id, the snapshot's success rate lies in [0,1], its daily cost and
    requests-per-minute are non-negative, and its daily requests lie between 0
    and the window size. *)
Theorem snapshot_ranges (history : list Outcome) (ws : nat) (aid : string) :
  let snap := (get_metrics aid (replay history (init ws))).1 in
  0 <= s_success_rate snap <= 1
  /\ 0 <= s_daily_cost snap
  /\ (0 <= s_daily_requests snap <= Z.of_nat ws)%Z
  /\ 0 <= s_requests_per_minute snap.
Proof.
  cbv zeta. unfold get_metrics. cbv zeta. simpl.
  set (mc := replay history (init ws)).
  destruct (replay_consistent history (init ws) (init_consistent ws)) as [Hc Hp].
  fold mc in Hc, Hp. specialize (Hc aid).
  set (s := dd_get 0%Z aid (success_counts mc)) in *.
  set (n := dd_get 0%Z aid (total_counts mc)) in *.
  assert (Hlen : (length (dd_get [] aid (response_times mc)) <= ws)%nat).
  { unfold dd_get. destruct (response_times mc !! aid) as [l|] eqn:E; simpl; [|lia].
    pose proof (replay_bounded history (init ws) (init_bounded ws) aid l E) as Hb.
    rewrite replay_window_size in Hb. exact Hb. }
  split; [|split; [|split]].
  - assert (Hm : 0 < inject_Z (Z.max 1 n)).
    { change 0 with (inject_Z 0). rewrite <- Zlt_Qlt. lia. }
    assert (Hs0 : 0 <= inject_Z s).
    { change 0 with (inject_Z 0). rewrite <- Zle_Qle. lia. }
    assert (Hsn : inject_Z s <= inject_Z (Z.max 1 n)) by (rewrite <- Zle_Qle; lia).
    split.
    + apply Qle_shift_div_l; [exact Hm | lra].
    + apply Qle_shift_div_r; [exact Hm | lra].
  - unfold dd_get. destruct (cost_history mc !! aid) as [l|] eqn:E; simpl; [|lra].
    destruct l; [lra|]. apply py_sum_nonneg. eapply Hp. exact E.
  - lia.
  - set (len := length _) in *.
    assert (Hd : 1 <= Qmax 1 (inject_Z (Z.of_nat len) * (1 # 100))) by apply Q.le_max_l.
    assert (Hl : 0 <= inject_Z (Z.of_nat len)).
    { change 0 with (inject_Z 0). rewrite <- Zle_Qle. lia. }
    apply Qle_shift_div_l; lra.
Qed.


Lemma replay_app h1 h2 mc : replay (h1 ++ h2) mc = replay h2 (replay h1 mc).
Proof. unfold replay. apply fold_left_app. Qed.

Lemma tail_drop {A} (n : nat) : forall l : list A, tail (drop n l) = drop (S n) l.
Proof.
  induction n as [|n IH]; intros l.
  - destruct l; reflexivity.
  - destruct l as [|x l']; [reflexivity|]. simpl. rewrite IH. reflexivity.
Qed.

Lemma deque_append_drop (ws : nat) (rs : list Q) (x : Q) :
  deque_append ws (drop (length rs - ws) rs) x
  = drop (length (rs ++ [x]) - ws) (rs ++ [x]).
Proof.
  unfold deque_append. cbv zeta. rewrite !length_app, length_drop. simpl.
  destruct (le_lt_dec ws (length rs)) as [Hge|Hlt].
  - replace (ws <? length rs - (length rs - ws) + 1)%nat with true
      by (symmetry; apply Nat.ltb_lt; lia).
    replace (length rs + 1 - ws)%nat with (S (length rs - ws)) by lia.
    rewrite <- drop_app_le by lia. apply tail_drop.
  - replace (ws <? length rs - (length rs - ws) + 1)%nat with false
      by (symmetry; apply Nat.ltb_ge; lia).
    replace (length rs - ws)%nat with 0%nat by lia.
    replace (length rs + 1 - ws)%nat with 0%nat by lia.
    reflexivity.
Qed.

(** X7. After any history, the response-time window of an account holds
    exactly the last window_size response times recorded for that account, in
    recording order (all of them while fewer were recorded); requests of other
    accounts do not disturb it. *)
Theorem window_holds_latest (history : list Outcome) (ws : nat) (aid : string) :
  let rs := responses_of aid history in
  dd_get [] aid (response_times (replay history (init ws)))
  = drop (length rs - ws) rs.
Proof.
  cbv zeta. induction history as [|o os IH] using rev_ind.
  - unfold dd_get. simpl. rewrite lookup_empty. reflexivity.
  - rewrite replay_app. unfold responses_of. rewrite List.filter_app, map_app.
    fold (responses_of aid os). simpl replay.
    unfold record_request at 1. simpl response_times.
    rewrite replay_window_size. simpl window_size. cbn [List.filter].
    destruct (String.eqb (o_account o) aid) eqn:E; cbn [map].
    + apply String.eqb_eq in E. rewrite E. rewrite dd_get_insert.
      rewrite IH. apply deque_append_drop.
    + apply String.eqb_neq in E. rewrite dd_get_insert_ne by exact E.
      rewrite app_nil_r. exact IH.
Qed.

Lemma replay_untouched aid history : forall mc,
  Forall (fun o => o_account o <> aid) history ->
  response_times (replay history mc) !! aid = response_times mc !! aid
  /\ success_counts (replay history mc) !! aid = success_counts mc !! aid
  /\ total_counts (replay history mc) !! aid = total_counts mc !! aid
  /\ cost_history (replay history mc) !! aid = cost_history mc !! aid.
Proof.
  induction history as [|o os IH]; intros mc Hall; simpl; [auto|].
  apply Forall_cons in Hall as [Ho Hall].
  destruct (IH (record_request (o_account o) (o_response_time o) (o_success o)
                  (o_cost o) mc) Hall) as (H1 & H2 & H3 & H4).
  rewrite H1, H2, H3, H4. unfold record_request. simpl.
  rewrite !lookup_insert_ne by exact Ho.
  destruct (o_success o), (Qltb 0 (o_cost o)); rewrite ?lookup_insert_ne by exact Ho; auto.
Qed.

(** X8. For an account id with no recorded request the snapshot is all zero
    (average response time, success rate, cost, request count, requests per
    minute), and an account refreshed from that snapshot is judged unhealthy
    by the health rule, whatever its other fields. *)
Theorem unseen_account_unhealthy (history : list Outcome) (ws : nat) (account : Account) :
  Forall (fun o => o_account o <> id account) history ->
  let snap := (get_metrics (id account) (replay history (init ws))).1 in
  s_avg_response_time snap = 0
  /\ s_success_rate snap == 0
  /\ s_daily_cost snap = 0
  /\ s_daily_requests snap = 0%Z
  /\ s_requests_per_minute snap == 0
  /\ HealthMonitor.verdict (IntelligentScheduler.refresh_metrics snap account) = false.
Proof.
  intros Hall. cbv zeta.
  destruct (replay_untouched (id account) history (init ws) Hall) as (H1 & H2 & H3 & H4).
  cbn [init response_times success_counts total_counts cost_history] in H1, H2, H3, H4.
  rewrite lookup_empty in H1. rewrite lookup_empty in H2.
  rewrite lookup_empty in H3. rewrite lookup_empty in H4.
  unfold get_metrics. cbv zeta. unfold dd_get. rewrite H1, H2, H3, H4. simpl.
  repeat split; reflexivity.
Qed.

Lemma unseen_account_unhealthy_witness :
  HealthMonitor.verdict
    (IntelligentScheduler.refresh_metrics
       (get_metrics "mid" (replay [mkOutcome "a" 100 true 0] (init 100))).1
       Scenario.mid) = false.
Proof.
  apply (unseen_account_unhealthy [mkOutcome "a" 100 true 0] 100%nat Scenario.mid).
  repeat constructor. discriminate.
Defined.


(** X9. After any history, the cost window of an account holds exactly the
    last window_size strictly positive costs recorded for that account, in
    recording order; a request with cost 0 or less leaves it as it is. *)
Theorem cost_window_holds_latest (history : list Outcome) (ws : nat) (aid : string) :
  let cs := costs_of aid history in
  dd_get [] aid (cost_history (replay history (init ws))) = drop (length cs - ws) cs.
Proof.
  cbv zeta. induction history as [|o os IH] using rev_ind.
  - unfold dd_get. simpl. rewrite lookup_empty. reflexivity.
  - rewrite replay_app. unfold costs_of. rewrite List.filter_app, map_app.
    fold (costs_of aid os). simpl replay.
    unfold record_request at 1. simpl cost_history.
    rewrite replay_window_size. simpl window_size. cbn [List.filter].
    destruct (Qltb 0 (o_cost o)) eqn:Ec.
    + destruct (String.eqb (o_account o) aid) eqn:E; cbn [andb map].
      * apply String.eqb_eq in E. rewrite E. rewrite dd_get_insert.
        rewrite IH. apply deque_append_drop.
      * apply String.eqb_neq in E. rewrite dd_get_insert_ne by exact E.
        rewrite app_nil_r. exact IH.
    + rewrite andb_false_r. cbn [map]. rewrite app_nil_r. exact IH.
Qed.

(** X10. After any history, an account's total count is the number of all its
    recorded requests and its success count the number of its successful ones,
    so the snapshot's success rate is successes / max(1, requests) over the
    whole history, not over the window. *)
Theorem success_rate_is_all_time (history : list Outcome) (ws : nat) (aid : string) :
  let mc := replay history (init ws) in
  dd_get 0%Z aid (total_counts mc) = Z.of_nat (length (outcomes_of aid history))
  /\ dd_get 0%Z aid (success_counts mc)
     = Z.of_nat (length (List.filter o_success (outcomes_of aid history)))
  /\ s_success_rate (get_metrics aid mc).1
     == inject_Z (Z.of_nat (length (List.filter o_success (outcomes_of aid history))))
        / inject_Z (Z.max 1 (Z.of_nat (length (outcomes_of aid history)))).
Proof.
  cbv zeta.
  assert (H : dd_get 0%Z aid (total_counts (replay history (init ws)))
              = Z.of_nat (length (outcomes_of aid history))
              /\ dd_get 0%Z aid (success_counts (replay history (init ws)))
                 = Z.of_nat (length (List.filter o_success (outcomes_of aid history)))).
  { induction history as [|o os IH] using rev_ind.
    - unfold dd_get. simpl. rewrite !lookup_empty. auto.
    - destruct IH as [IHt IHs]. rewrite replay_app. unfold outcomes_of.
      rewrite List.filter_app. fold (outcomes_of aid os). simpl replay.
      unfold record_request at 1 2. simpl total_counts. simpl success_counts.
      rewrite List.filter_app, !length_app. cbn [List.filter].
      destruct (String.eqb (o_account o) aid) eqn:E.
      + apply String.eqb_eq in E. rewrite E. rewrite dd_get_insert, IHt.
        cbn [List.filter]. destruct (o_success o).
        * rewrite dd_get_insert, IHs. simpl. lia.
        * rewrite IHs. simpl. lia.
      + apply String.eqb_neq in E. rewrite dd_get_insert_ne by exact E.
        rewrite IHt. cbn [List.filter]. destruct (o_success o).
        * rewrite dd_get_insert_ne by exact E. rewrite IHs. simpl. lia.
        * rewrite IHs. simpl. lia. }
  destruct H as [Ht Hs]. split; [exact Ht|]. split; [exact Hs|].
  unfold get_metrics. cbv zeta. simpl. rewrite Ht, Hs. reflexivity.
Qed.

End CollectorMore.

(** ** FailureRecovery, further *)

Section BreakerMore.
Import FailureRecovery.

(** X11. Whatever the prior state, after mark_success(id) the account has no
    breaker record, its failure count reads 0, can_use_account(id) answers
    true without reading the clock or changing the state, and a second
    mark_success changes nothing. *)
Theorem mark_success_closes (aid : string) (fr : t) (e : Env) :
  circuit_breaker (mark_success aid fr) !! aid = None
  /\ dd_get 0%Z aid (failure_counts (mark_success aid fr)) = 0%Z
  /\ can_use_account aid (mark_success aid fr) e = (true, mark_success aid fr, e)
  /\ mark_success aid (mark_success aid fr) = mark_success aid fr.
Proof.
  assert (Hrec : circuit_breaker (mark_success aid fr) !! aid = None)
    by (simpl; apply lookup_delete_eq).
  assert (Hcnt : dd_get 0%Z aid (failure_counts (mark_success aid fr)) = 0%Z).
  { unfold dd_get. simpl. destruct (failure_counts fr !! aid) eqn:E.
    - rewrite lookup_insert_eq. reflexivity.
    - rewrite E. reflexivity. }
  split; [exact Hrec|]. split; [exact Hcnt|]. split.
  - unfold can_use_account. rewrite Hrec. reflexivity.
  - unfold mark_success. simpl. f_equal.
    + destruct (failure_counts fr !! aid) eqn:E.
      * rewrite lookup_insert_eq. apply insert_insert_eq.
      * rewrite E. reflexivity.
    + apply delete_delete_eq.
Qed.

(** X12. A failure of kind auth_error or invalid_token at time t raises the
    failure count by one, prints the token-refresh line and opens a temporary
    record until t + 60: availability checks before t + 60 answer false,
    checks at or after t + 60 answer true. *)
Theorem auth_failure_cooldown (aid error_type : string) (fr : t) (e e' : Env) :
  is_quota_error error_type = false ->
  is_auth_error error_type = true ->
  let '(fr1, e1) := handle_request_failure aid error_type fr e in
  circuit_breaker fr1 !! aid
    = Some {| b_status := Open; retry_time := now e + 60; b_type := Temporary |}
  /\ dd_get 0%Z aid (failure_counts fr1) = (dd_get 0%Z aid (failure_counts fr) + 1)%Z
  /\ stdout e1 = stdout e ++ ["Triggering token refresh for account " ++ aid]%string
  /\ (now e' < now e + 60 -> (can_use_account aid fr1 e').1.1 = false)
  /\ (now e + 60 <= now e' -> (can_use_account aid fr1 e').1.1 = true).
Proof.
  intros Hq Ha. unfold handle_request_failure. cbv zeta. rewrite Hq, Ha.
  unfold _trigger_token_refresh, _mark_temporary_failure. simpl.
  split; [apply lookup_insert_eq|]. split; [apply dd_get_insert|].
  split; [reflexivity|].
  unfold can_use_account. simpl. rewrite lookup_insert_eq. simpl. split.
  - intros Hlt. apply Qle_bool_false in Hlt.
    change (clock e (ticks e) + inject_Z 60) with (now e + 60). rewrite Hlt. reflexivity.
  - intros Hge. apply Qle_bool_iff in Hge.
    change (clock e (ticks e) + inject_Z 60) with (now e + 60). rewrite Hge. reflexivity.
Qed.

Lemma auth_failure_cooldown_witness :
  (can_use_account "a"
     (handle_request_failure "a" "invalid_token" init (Scenario.env_at 0)).1
     (Scenario.env_at 59)).1.1 = false.
Proof.
  pose proof (auth_failure_cooldown "a" "invalid_token" init (Scenario.env_at 0)
                (Scenario.env_at 59) eq_refl eq_refl) as H.
  destruct (handle_request_failure "a" "invalid_token" init (Scenario.env_at 0))
    as [fr1 e1].
  destruct H as (_ & _ & _ & Hearly & _). apply Hearly. reflexivity.
Defined.

(** X13. Reporting a failure of any kind, checking availability or marking
    success for one account never changes the failure count or the breaker
    record of a different account. *)
Theorem breaker_isolation (aid k error_type : string) (fr : t) (e : Env) :
  aid <> k ->
  account_view k (handle_request_failure aid error_type fr e).1 = account_view k fr
  /\ account_view k (can_use_account aid fr e).1.2 = account_view k fr
  /\ account_view k (mark_success aid fr) = account_view k fr.
Proof.
  intros Hne. unfold account_view. split; [|split].
  - unfold handle_request_failure. cbv zeta.
    destruct (is_quota_error error_type); [|destruct (is_auth_error error_type)].
    + unfold _mark_temporary_failure. simpl. rewrite !lookup_insert_ne by exact Hne.
      reflexivity.
    + unfold _trigger_token_refresh, _mark_temporary_failure. simpl.
      rewrite !lookup_insert_ne by exact Hne. reflexivity.
    + unfold _activate_circuit_breaker. cbv zeta.
      destruct (5 <=? _)%Z; simpl; rewrite !lookup_insert_ne by exact Hne; reflexivity.
  - unfold can_use_account.
    destruct (circuit_breaker fr !! aid) as [cb|]; [|reflexivity].
    destruct (b_status cb); [|reflexivity]. simpl.
    destruct (Qle_bool _ _); simpl; rewrite ?lookup_insert_ne by exact Hne; reflexivity.
  - unfold mark_success. simpl. rewrite lookup_delete_ne by exact Hne.
    destruct (failure_counts fr !! aid); rewrite ?lookup_insert_ne by exact Hne; reflexivity.
Qed.

Lemma breaker_isolation_witness :
  account_view "b" (handle_request_failure "a" "rate_limit"
                      (Scenario.after_timeouts 5) (Scenario.env_at 0)).1
  = (None, None).
Proof.
  destruct (breaker_isolation "a" "b" "rate_limit" (Scenario.after_timeouts 5)
              (Scenario.env_at 0)) as (H & _); [discriminate|].
  rewrite H. reflexivity.
Defined.

End BreakerMore.

(** ** HealthMonitor, further *)

Section MonitorMore.
Import HealthMonitor.

(** X14. Over exact arithmetic the computed health verdict is true exactly
    when the average response time is below 5000, the success rate is above
    0.95, the error count is at most 10 and the status is active; the separate
    error-rate test (1 - successRate < 0.05) never decides. *)
Theorem verdict_thresholds (account : Account) :
  verdict account = true
  <-> avg_response_time (metrics account) < 5000
      /\ 95 # 100 < success_rate (metrics account)
      /\ (error_count (metrics account) <= 10)%Z
      /\ status account = "active"%string.
Proof.
  unfold verdict, _measure_health_metrics, is_active. cbv zeta. simpl.
  rewrite !andb_true_iff, !Qltb_lt, negb_true_iff, Z.ltb_ge, String.eqb_eq.
  split.
  - intros ((((H1 & H2) & H3) & H4) & H5). auto.
  - intros (H1 & H2 & H4 & H5). repeat split; try assumption. lra.
Qed.


(** X15. After every health check the cache holds an entry for the checked
    account whose verdict is the one returned; entries of other account ids
    and the check interval are unchanged, and the clock is read exactly once. *)
Theorem health_cache_coherent (account : Account) (hm : t) (e : Env) :
  let '(v, hm', e') := check_account_health account hm e in
  (exists en, health_cache hm' !! id account = Some en /\ healthy en = v)
  /\ (forall k, k <> id account -> health_cache hm' !! k = health_cache hm !! k)
  /\ check_interval hm' = check_interval hm
  /\ ticks e' = S (ticks e).
Proof.
  destruct (cache_valid hm (id account) (now e)) as [en|] eqn:Ev.
  - rewrite (check_hit _ _ _ _ Ev). split; [|auto]. exists en. split; [|reflexivity].
    unfold cache_valid in Ev.
    destruct (health_cache hm !! id account) as [en'|]; [|discriminate].
    destruct (Qltb _ _); [|discriminate]. exact Ev.
  - rewrite (check_miss _ _ _ Ev). split; [|split; [|auto]].
    + eexists. split; [apply lookup_insert_eq | reflexivity].
    + intros k Hk. simpl. apply lookup_insert_ne. congruence.
Qed.

End MonitorMore.

(** ** CostOptimizer *)

Section StrategyMore.


Lemma active_refs_spec h accounts r :
  r ∈ active_refs h accounts <-> r ∈ accounts /\ is_active (h r) = true.
Proof.
  unfold active_refs. rewrite !list_elem_of_In, filter_In. reflexivity.
Qed.

Lemma sorted_head_max {A} (key : A -> Q) x l :
  StronglySorted (desc key) (x :: l) -> forall y, y ∈ x :: l -> key y <= key x.
Proof.
  intros Hs y Hy. apply StronglySorted_inv in Hs as [_ Hall].
  apply elem_of_cons in Hy as [->|Hy]; [lra|].
  rewrite Forall_forall in Hall. apply Hall. exact Hy.
Qed.

Lemma cost_select_spec h accounts :
  match CostOptimizer.select_account h accounts with
  | None => active_refs h accounts = []
  | Some r =>
    r ∈ active_refs h accounts
    /\ forall r', r' ∈ active_refs h accounts ->
         cost_first_score h (active_refs h accounts) r'
         <= cost_first_score h (active_refs h accounts) r
  end.
Proof.
  unfold CostOptimizer.select_account. cbv zeta.
  destruct (active_refs h accounts) as [|a [|b l]] eqn:El; [reflexivity | |].
  - split; [left|]. intros r' Hr'. apply list_elem_of_singleton in Hr' as ->. lra.
  - rewrite <- El. set (pool := active_refs h accounts).
    set (f := fun r : ref => (r, _ : Q)).
    pose proof (sorted_desc_perm snd (map f pool)) as Hperm.
    pose proof (sorted_desc_sorted snd (map f pool)) as Hsorted.
    destruct (sorted_desc snd (map f pool)) as [|[r s] rest] eqn:Es.
    + apply Permutation_nil_l in Hperm. unfold pool in Hperm. rewrite El in Hperm.
      discriminate.
    + assert (Hmax : forall r', r' ∈ pool -> (f r').2 <= s).
      { intros r' Hr'.
        assert (Hin : f r' ∈ (r, s) :: rest).
        { rewrite Hperm. apply list_elem_of_fmap. eauto. }
        exact (sorted_head_max snd _ _ Hsorted _ Hin). }
      assert (Hhead : (r, s) ∈ map f pool) by (rewrite <- Hperm; left).
      apply list_elem_of_fmap in Hhead as (r0 & Heq & Hr0).
      injection Heq as -> ->. split; [exact Hr0|].
      intros r' Hr'. apply Hmax. exact Hr'.
Qed.

(** X16. The cost-first strategy returns no account exactly when no candidate
    is active; otherwise the account it returns is an active member of the
    list and no active candidate has a higher 0.7*cost + 0.3*health score
    (both scored against the active candidates). *)
Theorem cost_first_picks_best (h : Heap) (accounts : list ref) :
  (CostOptimizer.select_account h accounts = None <-> active_refs h accounts = [])
  /\ forall r,
       CostOptimizer.select_account h accounts = Some r ->
       r ∈ accounts /\ is_active (h r) = true
       /\ forall r', r' ∈ accounts -> is_active (h r') = true ->
            cost_first_score h (active_refs h accounts) r'
            <= cost_first_score h (active_refs h accounts) r.
Proof.
  pose proof (cost_select_spec h accounts) as Hspec.
  destruct (CostOptimizer.select_account h accounts) as [r|].
  - destruct Hspec as [Hin Hmax]. split.
    + split; [discriminate|]. intros E. rewrite E in Hin. apply elem_of_nil in Hin.
      contradiction.
    + intros r0 [= <-]. apply active_refs_spec in Hin as [Hin Hact].
      split; [exact Hin|]. split; [exact Hact|].
      intros r' Hr' Hact'. apply Hmax. apply active_refs_spec. auto.
  - split; [split; auto | discriminate].
Qed.

End StrategyMore.

(** ** WeightedRoundRobin, further *)

Section RotationMore.
Import WeightedRoundRobin.
Local Open Scope Z_scope.

Lemma rotation_selected_active h accounts s r s' :
  select_account h accounts s = (Some r, s') -> r ∈ active_refs h accounts.
Proof.
  rewrite rotation_unfold.
  destruct (active_refs h accounts) as [|a0 l0] eqn:El; [discriminate|].
  rewrite <- El. cbv zeta. unfold scan.
  destruct (fold_left _ _ _) as [[cw m] sel] eqn:Es.
  destruct sel as [r'|]; [|discriminate]. intros [= <- _].
  pose proof (scan_selected h
                (total_weights (refresh_weights h (active_refs h accounts) s))
                (active_refs h accounts)
                (current_weights (refresh_weights h (active_refs h accounts) s))
                (-1) None r') as Hsel.
  rewrite Es in Hsel. destruct (Hsel eq_refl) as [?|Hr]; [discriminate | exact Hr].
Qed.

Lemma scan_untouched h tw l : forall cw m sel k,
  k ∉ map (fun r => id (h r)) l ->
  at_key (fold_left (scan_step h tw) l (cw, m, sel)).1.1 k = at_key cw k.
Proof.
  induction l as [|r rs IH]; intros cw m sel k Hk; [reflexivity|].
  cbn [fold_left map] in *. apply not_elem_of_cons in Hk as [Hne Hk].
  destruct (scan_step_weights h tw cw m sel r) as (m' & sel' & ->).
  rewrite IH by exact Hk. apply at_key_insert_ne. congruence.
Qed.

Lemma refresh_untouched_total h l : forall s k,
  k ∉ map (fun r => id (h r)) l ->
  at_key (total_weights (refresh_weights h l s)) k = at_key (total_weights s) k.
Proof.
  unfold refresh_weights. generalize (deref h l) as pool. intros pool.
  induction l as [|r rs IH]; intros s k Hk; simpl; [reflexivity|].
  simpl in Hk. apply not_elem_of_cons in Hk as [Hne Hk].
  rewrite IH by exact Hk. simpl. apply at_key_insert_ne. congruence.
Qed.

(** X17. A weighted round-robin call returns only an active member of the
    list; with no active candidate it returns nothing and leaves its state as
    it is; afterwards every active candidate's total weight is at least 1, and
    the current and total weights of ids that are not active candidates are
    unchanged. *)
Theorem rotation_stays_within_candidates (h : Heap) (accounts : list ref) (s : t) :
  let '(sel, s') := select_account h accounts s in
  (forall r, sel = Some r -> r ∈ accounts /\ is_active (h r) = true)
  /\ (active_refs h accounts = [] -> sel = None /\ s' = s)
  /\ (forall r, r ∈ active_refs h accounts -> 1 <= at_key (total_weights s') (id (h r)))
  /\ (forall k, k ∉ active_ids h accounts ->
        at_key (current_weights s') k = at_key (current_weights s) k
        /\ at_key (total_weights s') k = at_key (total_weights s) k).
Proof.
  pose proof (rotation_selected_active h accounts s) as Hmember.
  rewrite rotation_unfold in *.
  destruct (active_refs h accounts) as [|a0 l0] eqn:El.
  { split; [discriminate|]. split; [auto|]. split; [|auto].
    intros r Hr. apply elem_of_nil in Hr. contradiction. }
  unfold active_ids. rewrite El. rewrite <- El in *. cbv zeta in *.
  set (s1 := refresh_weights h (active_refs h accounts) s) in *.
  pose proof (scan_untouched h (total_weights s1) (active_refs h accounts)
                (current_weights s1) (-1) None) as Hscan.
  unfold scan in *.
  destruct (fold_left _ _ _) as [[cw m] sel] eqn:Es. simpl in Hscan.
  assert (Hpos : forall r, r ∈ active_refs h accounts ->
                   1 <= at_key (total_weights s1) (id (h r)))
    by (intros r Hr; apply refresh_total_positive; exact Hr).
  assert (Hrest : forall k, k ∉ map (fun r => id (h r)) (active_refs h accounts) ->
                    at_key cw k = at_key (current_weights s) k
                    /\ at_key (total_weights s1) k = at_key (total_weights s) k).
  { intros k Hk. split.
    - rewrite Hscan by exact Hk. apply refresh_keeps_current.
    - apply refresh_untouched_total. exact Hk. }
  destruct sel as [r'|].
  - specialize (Hmember r' _ eq_refl).
    split; [|split; [|split]].
    + intros r [= <-]. apply active_refs_spec. exact Hmember.
    + intros E. rewrite E in Hmember. apply elem_of_nil in Hmember. contradiction.
    + exact Hpos.
    + intros k Hk. simpl. destruct (Hrest k Hk) as [Hc Ht]. split; [|exact Ht].
      rewrite at_key_insert_ne; [exact Hc|].
      intros <-. apply Hk. apply list_elem_of_fmap. eauto.
  - split; [discriminate|]. split.
    + intros E. rewrite El in E. discriminate.
    + split; [exact Hpos|]. intros k Hk. simpl. apply Hrest. exact Hk.
Qed.

End RotationMore.

(** ** IntelligentScheduler, further *)

Section SchedulerMore.
Import IntelligentScheduler.

(** X18. The strategy name is cost_first when cost_sensitive is truthy,
    otherwise weighted_round_robin when high_concurrency is truthy, otherwise
    intelligent (also for a missing or empty context); it is always one of
    these three, so the random branch of _apply_selection_algorithm is never
    taken from select_account. *)
Theorem select_algorithm_precedence (context : option (gmap string bool)) :
  _select_algorithm context
  = (if truthy context "cost_sensitive" then "cost_first"
     else if truthy context "high_concurrency" then "weighted_round_robin"
     else "intelligent")%string
  /\ (_select_algorithm context = "cost_first"
      \/ _select_algorithm context = "weighted_round_robin"
      \/ _select_algorithm context = "intelligent")%string.
Proof.
  assert (H : _select_algorithm context
              = (if truthy context "cost_sensitive" then "cost_first"
                 else if truthy context "high_concurrency" then "weighted_round_robin"
                 else "intelligent")%string).
  { unfold _select_algorithm. destruct context as [c|]; [|reflexivity].
    case_decide as Hc; [|reflexivity]. subst c. unfold truthy.
    rewrite !lookup_empty. reflexivity. }
  split; [exact H|]. rewrite H.
  destruct (truthy context "cost_sensitive"); [auto|].
  destruct (truthy context "high_concurrency"); auto.
Qed.

Lemma check_health_env account hm e :
  env_frame (HealthMonitor.check_account_health account hm e).2 = env_frame e.
Proof.
  unfold HealthMonitor.check_account_health. simpl.
  destruct (HealthMonitor.cache_valid _ _ _); reflexivity.
Qed.

Lemma can_use_env aid fr e :
  env_frame (FailureRecovery.can_use_account aid fr e).2 = env_frame e.
Proof.
  unfold FailureRecovery.can_use_account.
  destruct (FailureRecovery.circuit_breaker fr !! aid) as [cb|]; [|reflexivity].
  destruct (FailureRecovery.b_status cb); [|reflexivity].
  simpl. destruct (Qle_bool _ _); reflexivity.
Qed.

Lemma frame_refl w : filter_frame w w.
Proof. unfold filter_frame. repeat split; reflexivity. Qed.

Lemma frame_trans w1 w2 w3 :
  filter_frame w1 w2 -> filter_frame w2 w3 -> filter_frame w1 w3.
Proof.
  intros (A1 & A2 & A3 & A4) (B1 & B2 & B3 & B4).
  unfold filter_frame. repeat split; try congruence.
  - destruct (A3 r), (B3 r). congruence.
  - destruct (A3 r), (B3 r). congruence.
Qed.

Lemma filter_step_frame available w r :
  filter_frame w (filter_step (available, w) r).2
  /\ (exists keep : bool,
        (filter_step (available, w) r).1 = available ++ (if keep then [r] else []))
  /\ forall r', r' <> r -> heap (filter_step (available, w) r).2 r' = heap w r'.
Proof.
  unfold filter_step.
  destruct (MetricsCollector.get_metrics _ _) as [snap mc].
  set (a := heap_set (heap w) r (refresh_metrics snap (heap w r))).
  assert (Hids : forall r', id (a r') = id (heap w r') /\ status (a r') = status (heap w r')).
  { intros r'. unfold a, heap_set. destruct (Nat.eqb r' r) eqn:E; [|auto].
    apply Nat.eqb_eq in E. subst r'. auto. }
  assert (Hout : forall r', r' <> r -> a r' = heap w r').
  { intros r' Hne. unfold a, heap_set. apply Nat.eqb_neq in Hne. rewrite Hne. reflexivity. }
  cbn [heap env health_monitor set_heap set_collector].
  pose proof (check_health_env (a r) (health_monitor w) (env w)) as Hhe.
  destruct (HealthMonitor.check_account_health _ _ _) as [[is_healthy hm] e1].
  simpl in Hhe.
  cbn [heap env failure_recovery set_env set_monitor set_heap set_collector].
  destruct is_healthy.
  - pose proof (can_use_env (id (a r)) (failure_recovery w) e1) as Hce.
    destruct (FailureRecovery.can_use_account _ _ _) as [[usable fr] e2].
    simpl in Hce.
    destruct usable; simpl;
      (split; [unfold filter_frame; simpl; repeat split; try apply Hids; congruence|];
       split; [first [exists true; reflexivity | exists false; rewrite app_nil_r; reflexivity]
              | exact Hout]).
  - simpl.
    split; [unfold filter_frame; simpl; repeat split; try apply Hids; congruence|].
    split; [exists false; rewrite app_nil_r; reflexivity | exact Hout].
Qed.

Lemma filter_fold accounts : forall available w,
  filter_frame w (fold_left filter_step accounts (available, w)).2
  /\ (exists kept, (fold_left filter_step accounts (available, w)).1 = available ++ kept
                   /\ sublist kept accounts)
  /\ forall r, r ∉ accounts ->
       heap (fold_left filter_step accounts (available, w)).2 r = heap w r.
Proof.
  induction accounts as [|r rs IH]; intros available w.
  - simpl. split; [apply frame_refl|]. split; [|reflexivity].
    exists []. rewrite app_nil_r. split; [reflexivity | constructor].
  - cbn [fold_left].
    destruct (filter_step_frame available w r) as (Hf & (keep & Hk) & Hh).
    destruct (filter_step (available, w) r) as [av1 w1]. simpl in Hf, Hk, Hh.
    destruct (IH av1 w1) as (Hf' & (kept & Hkept & Hsub) & Hh').
    split; [eapply frame_trans; eassumption|]. split.
    + exists ((if keep then [r] else []) ++ kept). split.
      * rewrite Hkept, Hk, <- app_assoc. reflexivity.
      * destruct keep; simpl; [apply sublist_skip | apply sublist_cons]; exact Hsub.
    + intros r' Hr'. apply not_elem_of_cons in Hr' as [Hne Hr'].
      rewrite Hh' by exact Hr'. apply Hh. exact Hne.
Qed.

(** X19. Filtering returns a sub-list of the candidates in their original
    order; it changes no selection statistics, no rotation weights, no
    account's id or status, nothing of the random source or the output, and no
    account that is not in the list. *)
Theorem filter_keeps_order_and_identity (accounts : list ref) (w : World) :
  let '(available, w') := _filter_available_accounts accounts w in
  sublist available accounts
  /\ filter_frame w w'
  /\ forall r, r ∉ accounts -> heap w' r = heap w r.
Proof.
  unfold _filter_available_accounts.
  destruct (filter_fold accounts [] w) as (Hf & (kept & Hk & Hsub) & Hh).
  destruct (fold_left filter_step accounts ([], w)) as [available w'].
  simpl in *. subst available. auto.
Qed.


Lemma random_choice_member {A} (l : list A) (e : Env) x :
  (random_choice l e).1 = Some x -> x ∈ l.
Proof.
  unfold random_choice. simpl. intros H. apply list_elem_of_In.
  eapply nth_error_In. exact H.
Qed.

Lemma intelligent_member accounts w r :
  (_intelligent_selection accounts w).1 = Ok (Some r) -> r ∈ accounts.
Proof.
  unfold _intelligent_selection. destruct accounts as [|a0 l0] eqn:Ea; [discriminate|].
  rewrite <- Ea.
  destruct (random_choice _ _) as [pick e1] eqn:Er.
  destruct pick as [x|]; [|discriminate]. simpl. intros [= <-].
  assert (Hx : x ∈ firstn (top_percent (length (ranked (heap w) accounts)))
                      (ranked (heap w) accounts)).
  { eapply random_choice_member. rewrite Er. reflexivity. }
  apply elem_of_take in Hx as (i & Hi & _). apply list_elem_of_lookup_2 in Hi.
  unfold ranked in Hi. rewrite sorted_desc_perm in Hi. exact Hi.
Qed.

Lemma intelligent_some accounts w :
  accounts <> [] -> exists r, (_intelligent_selection accounts w).1 = Ok (Some r).
Proof.
  intros Hne. unfold _intelligent_selection.
  destruct accounts as [|a0 l0] eqn:Ea; [contradiction|]. rewrite <- Ea.
  set (top := firstn _ _).
  assert (Hne' : top <> []).
  { unfold top, top_percent.
    assert (Hlen : length (ranked (heap w) accounts) = length accounts)
      by (unfold ranked; rewrite sorted_desc_perm; reflexivity).
    rewrite Hlen.
    destruct (ranked (heap w) accounts) as [|x xs] eqn:Ex.
    - rewrite Ea in Hlen. discriminate.
    - destruct (Nat.max 1 (length accounts / 5)) eqn:Em; [lia | discriminate]. }
  destruct (random_choice_nonempty top (env w) Hne') as (x & Hx & _).
  destruct (random_choice top (env w)) as [pick e1]. simpl in Hx. subst pick. eauto.
Qed.

Lemma apply_member algorithm accounts w r :
  (_apply_selection_algorithm algorithm accounts w).1 = Ok (Some r) -> r ∈ accounts.
Proof.
  unfold _apply_selection_algorithm.
  destruct (String.eqb algorithm "cost_first").
  { simpl. intros [= H]. pose proof (cost_select_spec (heap w) accounts) as Hs.
    rewrite H in Hs. destruct Hs as [Hin _]. apply active_refs_spec in Hin. tauto. }
  destruct (String.eqb algorithm "weighted_round_robin").
  { destruct (WeightedRoundRobin.select_account _ _ _) as [sel rr] eqn:E.
    simpl. intros [= ->]. apply rotation_selected_active in E.
    apply active_refs_spec in E. tauto. }
  destruct (String.eqb algorithm "intelligent"); [apply intelligent_member|].
  destruct (random_choice accounts (env w)) as [pick e1] eqn:Er.
  destruct pick as [x|]; [|discriminate]. simpl. intros [= <-].
  eapply random_choice_member. rewrite Er. reflexivity.
Qed.

Lemma survivors_sublist accounts w : sublist (survivors accounts w).1 accounts.
Proof.
  unfold survivors, _filter_available_accounts.
  destruct (filter_fold accounts [] (entered w)) as (_ & (kept & Hk & Hsub) & _).
  rewrite Hk. exact Hsub.
Qed.

Lemma survivors_frame accounts w : filter_frame (entered w) (survivors accounts w).2.
Proof.
  unfold survivors, _filter_available_accounts.
  destruct (filter_fold accounts [] (entered w)) as (Hf & _). exact Hf.
Qed.


(** X20. Whenever select_account returns an account, it is one of the accounts
    of the list it was given, on every path: single survivor, each strategy,
    and the fallback. *)
Theorem select_returns_candidate (accounts : list ref)
    (context : option (gmap string bool)) (w : World) (r : ref) :
  (select_account accounts context w).1 = Ok (Some r) -> r ∈ accounts.
Proof.
  rewrite select_account_unfold, select_body_unfold.
  change (set_total_selections (total_selections (set_env (time_time (env w)).2 w) + 1)
            (set_env (time_time (env w)).2 w)) with (entered w).
  pose proof (survivors_sublist accounts w) as Hsub. unfold survivors in Hsub.
  destruct (_filter_available_accounts accounts (entered w)) as [available w2].
  simpl in Hsub.
  assert (Hfallback :
    forall msg w1,
      (let w'' := set_env (print ("Selection failed, using fallback: " ++ msg) (env w1)) w1 in
       match accounts with
       | [] => (Ok None, w'')
       | _ :: _ =>
         let '(pick, e1) := random_choice accounts (env w'') in
         match pick with
         | Some r0 => (Ok (Some r0), set_env e1 w'')
         | None => (Raised "IndexError", set_env e1 w'')
         end
       end).1 = Ok (Some r) -> r ∈ accounts).
  { intros msg w1. cbv zeta. destruct accounts as [|a0 l0] eqn:Ea; [discriminate|].
    rewrite <- Ea.
    destruct (random_choice accounts _) as [pick e1] eqn:Er.
    destruct pick as [x|]; [|discriminate]. simpl. intros [= <-].
    eapply random_choice_member. rewrite Er. reflexivity. }
  destruct available as [|r0 [|r1 rest]].
  - apply Hfallback.
  - simpl. intros [= <-]. eapply elem_of_sublist; [|exact Hsub]. left.
  - pose proof (apply_member (_select_algorithm context) (r0 :: r1 :: rest)
                  (count_usage (_select_algorithm context) w2) r) as Hmem.
    destruct (_apply_selection_algorithm _ _ _) as [[sel|msg] w4].
    + simpl in *. intros [= ->]. eapply elem_of_sublist; [|exact Hsub]. auto.
    + apply Hfallback.
Qed.

Lemma select_returns_candidate_witness :
  (select_account [0; 1]%nat None Scenario.warm).1 = Ok (Some 0%nat)
  /\ 0%nat ∈ [0; 1]%nat.
Proof.
  assert (Hsel : (select_account [0; 1]%nat None Scenario.warm).1 = Ok (Some 0%nat))
    by (vm_compute; reflexivity).
  split; [exact Hsel|].
  exact (select_returns_candidate [0; 1]%nat None Scenario.warm 0%nat Hsel).
Defined.

(** X21. When the context selects the intelligent strategy (no context, an
    empty one, or neither flag truthy), select_account returns an account for
    every non-empty list, whatever the health cache, breaker and metrics
    state. *)
Theorem select_default_strategy_nonnull (accounts : list ref)
    (context : option (gmap string bool)) (w : World) :
  _select_algorithm context = "intelligent"%string ->
  accounts <> [] ->
  exists r, (select_account accounts context w).1 = Ok (Some r).
Proof.
  intros Halg Hne. rewrite select_account_unfold, select_body_unfold.
  destruct (_filter_available_accounts accounts _) as [available w2].
  assert (Hfallback :
    forall msg w1,
      exists r,
      (let w'' := set_env (print ("Selection failed, using fallback: " ++ msg) (env w1)) w1 in
       match accounts with
       | [] => (Ok None, w'')
       | _ :: _ =>
         let '(pick, e1) := random_choice accounts (env w'') in
         match pick with
         | Some r0 => (Ok (Some r0), set_env e1 w'')
         | None => (Raised "IndexError", set_env e1 w'')
         end
       end).1 = Ok (Some r)).
  { intros msg w1. cbv zeta. destruct accounts as [|a0 l0] eqn:Ea; [contradiction|].
    rewrite <- Ea.
    assert (Hne' : accounts <> []) by (rewrite Ea; discriminate).
    match goal with |- context [random_choice accounts ?e] =>
      destruct (random_choice_nonempty accounts e Hne') as (x & Hx & _);
      destruct (random_choice accounts e) as [pick e1] end.
    simpl in Hx. subst pick. eauto. }
  destruct available as [|r0 [|r1 rest]].
  - apply Hfallback.
  - eauto.
  - rewrite Halg. unfold _apply_selection_algorithm. simpl String.eqb. cbv iota.
    destruct (intelligent_some (r0 :: r1 :: rest)
                (count_usage "intelligent" w2)) as (r & Hr); [discriminate|].
    destruct (_intelligent_selection _ _) as [res w4]. simpl in Hr. subst res.
    simpl. eauto.
Qed.

Lemma select_default_strategy_nonnull_witness :
  exists r, (select_account [0; 1]%nat None Scenario.stale).1 = Ok (Some r).
Proof.
  apply (select_default_strategy_nonnull [0; 1]%nat None Scenario.stale);
    [reflexivity | discriminate].
Defined.

(** X22. When the list is non-empty and no candidate survives filtering,
    select_account returns the account at position (draw mod length) of the
    unfiltered list, prints the line 'Selection failed, using fallback: No
    available accounts', consumes one random draw, counts the call and leaves
    the mean selection time and the usage counters as they were. *)
Theorem fallback_pick (accounts : list ref)
    (context : option (gmap string bool)) (w : World) :
  accounts <> [] ->
  (survivors accounts w).1 = [] ->
  let w' := (select_account accounts context w).2 in
  (exists r, (select_account accounts context w).1 = Ok (Some r)
             /\ nth_error accounts
                  (draws (env w) (drawn (env w)) mod length accounts)%nat = Some r)
  /\ stdout (env w')
     = stdout (env w) ++ ["Selection failed, using fallback: No available accounts"]%string
  /\ drawn (env w') = S (drawn (env w))
  /\ stats w' = (total_selections w + 1, avg_selection_time w, algorithm_usage w)%Z.
Proof.
  intros Hne Hnone. cbv zeta.
  rewrite select_account_unfold, select_body_unfold.
  change (set_total_selections (total_selections (set_env (time_time (env w)).2 w) + 1)
            (set_env (time_time (env w)).2 w)) with (entered w).
  pose proof (survivors_frame accounts w) as (Hstats & _ & _ & Henv).
  unfold survivors in Hnone, Hstats, Henv.
  destruct (_filter_available_accounts accounts (entered w)) as [available w2].
  simpl in Hnone, Hstats, Henv. subst available. cbv zeta.
  unfold env_frame in Henv. simpl in Henv. injection Henv as Hclock Hdraws Hdrawn Hout.
  destruct accounts as [|a0 l0] eqn:Ea; [contradiction|]. rewrite <- Ea in *.
  unfold random_choice. cbn [env set_env print draws drawn].
  rewrite Hdraws, Hdrawn.
  assert (Hlt : (draws (env w) (drawn (env w)) mod length accounts < length accounts)%nat).
  { apply Nat.mod_upper_bound. rewrite Ea. simpl. lia. }
  destruct (nth_error accounts _) as [x|] eqn:Ex.
  - simpl. split; [eauto|]. split; [rewrite Hout; reflexivity|].
    split; [reflexivity|]. exact Hstats.
  - apply nth_error_None in Ex. lia.
Qed.

Lemma fallback_pick_witness :
  (select_account [0; 1]%nat None Scenario.fresh).1 = Ok (Some 0%nat).
Proof.
  destruct (fallback_pick [0; 1]%nat None Scenario.fresh) as ((r & Hr & Hnth) & _).
  - discriminate.
  - vm_compute. reflexivity.
  - rewrite Hr. vm_compute in Hnth. rewrite Hnth. reflexivity.
Defined.


Lemma weighted_mean_between (old t n : Q) :
  1 <= n ->
  Qmin old t <= (old * (n - 1) + t) / n <= Qmax old t.
Proof.
  intros Hn.
  assert (Hlo1 : Qmin old t <= old) by apply Q.le_min_l.
  assert (Hlo2 : Qmin old t <= t) by apply Q.le_min_r.
  assert (Hhi1 : old <= Qmax old t) by apply Q.le_max_l.
  assert (Hhi2 : t <= Qmax old t) by apply Q.le_max_r.
  set (lo := Qmin old t) in *. set (hi := Qmax old t) in *. clearbody lo hi.
  split.
  - apply Qle_shift_div_l; [lra|].
    assert (H : 0 <= (old - lo) * (n - 1)) by (apply Qmult_le_0_compat; lra).
    lra.
  - apply Qle_shift_div_r; [lra|].
    assert (H : 0 <= (hi - old) * (n - 1)) by (apply Qmult_le_0_compat; lra).
    lra.
Qed.

(** X23. With at least one selection counted, _record_selection_metrics sets
    the mean selection time to a value between the old mean and the new
    selection time (the new time itself at the first selection), changes
    neither the selection count nor the usage counters, stamps only the given
    account's lastUsed, and with no account touches neither the accounts nor
    the clock. *)
Theorem running_mean_between (account : option ref) (selection_time : Q) (w : World) :
  (1 <= total_selections w)%Z ->
  let w' := _record_selection_metrics account selection_time w in
  Qmin (avg_selection_time w) selection_time <= avg_selection_time w'
  /\ avg_selection_time w' <= Qmax (avg_selection_time w) selection_time
  /\ (total_selections w = 1%Z -> avg_selection_time w' == selection_time)
  /\ total_selections w' = total_selections w
  /\ algorithm_usage w' = algorithm_usage w
  /\ (account = None -> heap w' = heap w /\ env w' = env w)
  /\ (forall r, account = Some r ->
        last_used (metrics (heap w' r)) = Some (now (env w))
        /\ forall r', r' <> r -> heap w' r' = heap w r').
Proof.
  intros Hn. cbv zeta.
  assert (Hq : 1 <= inject_Z (total_selections w)).
  { change 1 with (inject_Z 1). rewrite <- Zle_Qle. exact Hn. }
  pose proof (weighted_mean_between (avg_selection_time w) selection_time
                (inject_Z (total_selections w)) Hq) as [Hlo Hhi].
  unfold _record_selection_metrics. cbv zeta.
  destruct account as [r|]; simpl.
  - split; [exact Hlo|]. split; [exact Hhi|]. split.
    + intros H1. rewrite H1. field.
    + split; [reflexivity|]. split; [reflexivity|]. split; [discriminate|].
      intros r0 [= <-]. unfold heap_set. rewrite Nat.eqb_refl. split; [reflexivity|].
      intros r' Hne. apply Nat.eqb_neq in Hne. rewrite Hne. reflexivity.
  - split; [exact Hlo|]. split; [exact Hhi|]. split.
    + intros H1. rewrite H1. field.
    + split; [reflexivity|]. split; [reflexivity|]. split; [|discriminate].
      intros _. split; [reflexivity|]. destruct w as [? ? ? ? ? ? ? ? ? []]. reflexivity.
Qed.

Lemma running_mean_between_witness :
  avg_selection_time
    (_record_selection_metrics None 6
       (set_avg_selection_time 2 (set_total_selections 2 Scenario.fresh))) <= 6.
Proof.
  destruct (running_mean_between None 6
              (set_avg_selection_time 2 (set_total_selections 2 Scenario.fresh)))
    as (_ & Hhi & _); [simpl; lia|].
  exact Hhi.
Defined.

(** X24. record_request_result always records the outcome in the metrics
    collector and never changes the selection statistics, the accounts or the
    health cache; a success clears the account's breaker state so that it is
    usable; a failure without an error kind (none or empty) leaves the breaker
    state and the clock untouched; a failure with a kind is handled by
    handle_request_failure. *)
Theorem record_result_routing (aid : string) (success : bool) (response_time cost : Q)
    (error_type : option string) (w : World) :
  let w' := record_request_result aid success response_time cost error_type w in
  metrics_collector w'
  = MetricsCollector.record_request aid response_time success cost (metrics_collector w)
  /\ stats w' = stats w
  /\ heap w' = heap w
  /\ health_monitor w' = health_monitor w
  /\ (success = true ->
      failure_recovery w' = FailureRecovery.mark_success aid (failure_recovery w)
      /\ env w' = env w
      /\ forall e, (FailureRecovery.can_use_account aid (failure_recovery w') e).1.1 = true)
  /\ (success = false -> error_type = None \/ error_type = Some EmptyString ->
      failure_recovery w' = failure_recovery w /\ env w' = env w)
  /\ (success = false -> forall kind, error_type = Some kind -> kind <> EmptyString ->
      (failure_recovery w', env w')
      = FailureRecovery.handle_request_failure aid kind (failure_recovery w) (env w)).
Proof.
  cbv zeta. unfold record_request_result. cbv zeta.
  destruct success.
  - split; [reflexivity|]. split; [reflexivity|]. split; [reflexivity|].
    split; [reflexivity|]. split; [|split; discriminate].
    intros _. split; [reflexivity|]. split; [reflexivity|].
    intros e. unfold FailureRecovery.can_use_account. simpl.
    rewrite lookup_delete_eq. reflexivity.
  - destruct error_type as [kind|].
    + destruct (String.eqb kind EmptyString) eqn:E.
      * apply String.eqb_eq in E. subst kind.
        split; [reflexivity|]. split; [reflexivity|]. split; [reflexivity|].
        split; [reflexivity|]. split; [discriminate|]. split.
        -- intros _ _. split; reflexivity.
        -- intros _ k [= <-] Hk. contradiction.
      * apply String.eqb_neq in E.
        cbn [failure_recovery env set_collector].
        destruct (FailureRecovery.handle_request_failure aid kind _ _) as [fr e1] eqn:Eh.
        split; [reflexivity|]. split; [reflexivity|]. split; [reflexivity|].
        split; [reflexivity|]. split; [discriminate|]. split.
        -- intros _ [H|H]; [discriminate | injection H as ->; contradiction].
        -- intros _ k [= <-] _. rewrite Eh. reflexivity.
    + split; [reflexivity|]. split; [reflexivity|]. split; [reflexivity|].
      split; [reflexivity|]. split; [discriminate|]. split.
      * intros _ _. split; reflexivity.
      * intros _ k H. discriminate.
Qed.

Lemma record_result_routing_witness :
  FailureRecovery.circuit_breaker
    (failure_recovery
       (record_request_result "a" false 100 0 None
          (record_request_result "a" false 100 0 (Some "rate_limit") Scenario.fresh)))
  = {[ "a"%string := {| FailureRecovery.b_status := FailureRecovery.Open;
                        FailureRecovery.retry_time := 0 + inject_Z 300;
                        FailureRecovery.b_type := FailureRecovery.Temporary |} ]}.
Proof.
  destruct (record_result_routing "a" false 100 0 None
              (record_request_result "a" false 100 0 (Some "rate_limit") Scenario.fresh))
    as (_ & _ & _ & _ & _ & Hsilent & _).
  destruct Hsilent as [Hfr _]; [reflexivity | left; reflexivity |].
  rewrite Hfr.
  destruct (record_result_routing "a" false 100 0 (Some "rate_limit") Scenario.fresh)
    as (_ & _ & _ & _ & _ & _ & Hkind).
  specialize (Hkind eq_refl "rate_limit"%string eq_refl ltac:(discriminate)).
  pose proof (f_equal fst Hkind) as Hfr'. cbn [fst] in Hfr'.
  rewrite Hfr'. reflexivity.
Defined.

End SchedulerMore.

(** ** Diagnostics *)

Section StatsMore.
Import IntelligentScheduler.

Lemma filter_step_hits st r : cache_hits (filter_step st r).2 = cache_hits st.2.
Proof.
  destruct st as [available w]. unfold filter_step.
  destruct (MetricsCollector.get_metrics _ _) as [snap mc].
  destruct (HealthMonitor.check_account_health _ _ _) as [[is_healthy hm] e1].
  destruct is_healthy; [|reflexivity].
  destruct (FailureRecovery.can_use_account _ _ _) as [[usable fr] e2].
  destruct usable; reflexivity.
Qed.

Lemma filter_hits accounts : forall st,
  cache_hits (fold_left filter_step accounts st).2 = cache_hits st.2.
Proof.
  induction accounts as [|r rs IH]; intros st; simpl; [reflexivity|].
  rewrite IH. apply filter_step_hits.
Qed.

Lemma apply_hits algorithm accounts w :
  cache_hits (_apply_selection_algorithm algorithm accounts w).2 = cache_hits w.
Proof.
  unfold _apply_selection_algorithm.
  destruct (String.eqb algorithm "cost_first"); [reflexivity|].
  destruct (String.eqb algorithm "weighted_round_robin").
  { destruct (WeightedRoundRobin.select_account _ _ _) as [sel rr]. reflexivity. }
  destruct (String.eqb algorithm "intelligent").
  { unfold _intelligent_selection. destruct accounts; [reflexivity|].
    destruct (random_choice _ _) as [[pick|] e1]; reflexivity. }
  destruct (random_choice _ _) as [[pick|] e1]; reflexivity.
Qed.

Lemma select_counters accounts context w :
  total_selections (select_account accounts context w).2 = (total_selections w + 1)%Z
  /\ cache_hits (select_account accounts context w).2 = cache_hits w.
Proof.
  rewrite select_account_unfold.
  pose proof (select_body_total (now (env w)) accounts context
                (set_env (time_time (env w)).2 w)) as Hb.
  assert (Hh : cache_hits (select_body (now (env w)) accounts context
                             (set_env (time_time (env w)).2 w)).2 = cache_hits w).
  { rewrite select_body_unfold. unfold _filter_available_accounts.
    match goal with |- context [fold_left filter_step accounts ?st] =>
      pose proof (filter_hits accounts st) as Hf;
      destruct (fold_left filter_step accounts st) as [available w2] end.
    simpl in Hf.
    destruct available as [|r0 [|r1 rest]]; simpl; try exact Hf.
    pose proof (apply_hits (_select_algorithm context) (r0 :: r1 :: rest)
                  (count_usage (_select_algorithm context) w2)) as Ha.
    destruct (_apply_selection_algorithm _ _ _) as [[sel|msg] w4]; simpl in Ha |- *.
    - destruct sel; simpl; congruence.
    - congruence. }
  destruct (select_body _ _ _ _) as [[res|msg] w1]; simpl in Hb, Hh; [auto|].
  cbv zeta. destruct accounts; [auto|].
  destruct (random_choice _ _) as [[pick|] e1]; auto.
Qed.

Lemma report_counters aid success rt cost et w :
  total_selections (record_request_result aid success rt cost et w) = total_selections w
  /\ cache_hits (record_request_result aid success rt cost et w) = cache_hits w.
Proof.
  unfold record_request_result. cbv zeta. destruct success; [auto|].
  destruct et as [kind|]; [|auto].
  destruct (String.eqb kind EmptyString); [auto|].
  destruct (FailureRecovery.handle_request_failure _ _ _ _). auto.
Qed.

(** X25. Over any sequence of select_account and record_request_result calls
    on a fresh scheduler, get_performance_stats reports a total_selections
    equal to the number of select_account calls made and a cache_hits of 0:
    nothing ever counts a cache hit. *)
Theorem performance_stats_counters (calls : list Call) (h : Heap) (e : Env) :
  let report := get_performance_stats (run_client_calls calls (init h e)) in
  ps_total_selections report = Z.of_nat (length (List.filter is_select calls))
  /\ ps_cache_hits report = 0%Z.
Proof.
  cbv zeta. unfold get_performance_stats. simpl.
  assert (H : forall w,
            total_selections (run_client_calls calls w)
            = (total_selections w + Z.of_nat (length (List.filter is_select calls)))%Z
            /\ cache_hits (run_client_calls calls w) = cache_hits w).
  { unfold run_client_calls. induction calls as [|c cs IH]; intros w; simpl.
    - split; [lia | reflexivity].
    - destruct (IH (run_call w c)) as [IHt IHh]. rewrite IHt, IHh.
      destruct c as [accounts context | aid success rt cost et]; simpl.
      + destruct (select_counters accounts context w) as [Ht Hh]. rewrite Ht, Hh.
        split; [lia | reflexivity].
      + destruct (report_counters aid success rt cost et w) as [Ht Hh]. rewrite Ht, Hh.
        split; [reflexivity | reflexivity]. }
  destruct (H (init h e)) as [Ht Hh]. rewrite Ht, Hh. simpl. split; [lia | reflexivity].
Qed.

End StatsMore.
